(** * TOuNN: the optimisation driver of [tounn/TOuNNOptimizer.py]

    A shallow embedding of class [TopologyOptimizer]: the device choice,
    the symmetry and projection transforms, and the training loop of
    [optimizeDesign] with its continuation schedule, its convergence
    history and its exit test.

    Numbers.  Python floats and tensor entries are idealised as real
    numbers: rounding, overflow and signed zeros are not modelled.  A
    tensor entry is an [fval]: [Some r] is the finite real [r], [None] is
    a value that left the finite reals (an infinity or a NaN, as produced
    by a division by zero or by a power that is undefined over the
    reals).  [None] is sticky: every operation with a [None] operand
    gives [None] and every comparison with it is false.  IEEE arithmetic
    sends a few such operands back to finite values ([x / inf = 0],
    [nan ** 0 = 1], [tanh inf = 1]); the embedding does not follow a
    computation that far.

    Exceptions.  A call either returns or raises: a local variable or an
    attribute read before its first assignment, Python's division of a
    float by the integer 0, and a [reshape] to a shape of another size
    end the call with [Raise].

    Collaborators.  The network, the finite-element solver and the Adam
    optimiser live in other modules of the repository; they are
    variables of the section [Driver].  Their contract (one density per
    coordinate row, one sensitivity per density) is what makes the
    element-wise operations below shape-correct. *)

From Stdlib Require Import String Reals Lra Lia ZArith Bool List.
Import ListNotations.

Local Open Scope R_scope.

(** ** Exceptions and results *)

Inductive exn : Type :=
| UnboundLocalError (name : string)
| AttributeError (name : string)
| ZeroDivisionError
| ValueError.

Inductive res (A : Type) : Type :=
| Ok (a : A)
| Raise (e : exn).

Arguments Ok {A} a.
Arguments Raise {A} e.

Definition bind {A B : Type} (c : res A) (k : A -> res B) : res B :=
  match c with
  | Ok a => k a
  | Raise e => Raise e
  end.

Notation "x <- c ;; k" := (bind c (fun x => k))
  (at level 61, c at next level, right associativity).

(** Reading a local variable or an attribute that may not be bound. *)
Definition read {A : Type} (e : exn) (v : option A) : res A :=
  match v with
  | Some a => Ok a
  | None => Raise e
  end.

(** ** Scalars and tensors *)

Definition fval : Type := option R.
Definition tensor : Type := list fval.

Definition Rltb (x y : R) : bool := if Rlt_dec x y then true else false.
Definition Reqb (x y : R) : bool := if Req_dec_T x y then true else false.

Definition lift1 (f : R -> R) (a : fval) : fval :=
  match a with
  | Some x => Some (f x)
  | None => None
  end.

Definition lift2 (f : R -> R -> R) (a b : fval) : fval :=
  match a, b with
  | Some x, Some y => Some (f x y)
  | _, _ => None
  end.

Definition fadd : fval -> fval -> fval := lift2 Rplus.
Definition fsub : fval -> fval -> fval := lift2 Rminus.
Definition fmul : fval -> fval -> fval := lift2 Rmult.

(** Division: a zero divisor gives an infinity or a NaN. *)
Definition fdiv (a b : fval) : fval :=
  match a, b with
  | Some x, Some y => if Reqb y 0 then None else Some (x / y)
  | _, _ => None
  end.

(** [x ** p] for a float exponent [p], as C's [pow] over the reals:
    a positive base uses [exp (p * ln x)]; anything to the power 0 is 1;
    0 to a positive power is 0 and to a negative power is infinite; a
    negative base has a real power only for an integral exponent. *)
Definition rpow (x p : R) : fval :=
  if Rltb 0 x then Some (Rpower x p)
  else if Reqb p 0 then Some 1
  else if Reqb x 0 then (if Rltb 0 p then Some 0 else None)
  else if Reqb (frac_part p) 0 then Some (powerRZ x (Int_part p))
  else None.

Definition fpow (a : fval) (p : R) : fval :=
  match a with
  | Some x => rpow x p
  | None => None
  end.

(** [min(a, b)] of Python: the first argument unless the second is
    strictly smaller. *)
Definition py_min (a b : R) : R := if Rltb b a then b else a.

(** Element-wise combination of two tensors of the same shape. *)
Fixpoint map2 {A B C : Type} (f : A -> B -> C) (l : list A) (m : list B)
  : list C :=
  match l, m with
  | a :: l', b :: m' => f a b :: map2 f l' m'
  | _, _ => []
  end.

(** [torch.sum] / [ndarray.sum]: 0 for an empty tensor. *)
Definition fsum (t : tensor) : fval := fold_right fadd (Some 0) t.

(** [torch.mean] / [np.average]: NaN for an empty tensor. *)
Definition fmean (t : tensor) : fval :=
  fdiv (fsum t) (Some (INR (length t))).

(** ** Device selection *)

Inductive device : Type := cpu | cuda0.

(** [setDevice]; [cuda_is_available] is the answer of
    [torch.cuda.is_available()]. *)
Definition setDevice (cuda_is_available overrideGPU : bool) : device :=
  if cuda_is_available && Bool.eqb overrideGPU false then cuda0 else cpu.

(** The keyword default of [__init__]: [overrideGPU=True]. *)
Definition overrideGPU_default : bool := true.

(** The device chosen by [__init__], called with or without the keyword. *)
Definition init_device (cuda_is_available : bool) (overrideGPU : option bool)
  : device :=
  setDevice cuda_is_available
    (match overrideGPU with Some o => o | None => overrideGPU_default end).

(** ** Configuration dictionaries *)

Module SymAxis.
Record t : Type := mk { isOn : bool; midPt : R }.
End SymAxis.

Module DensityProjection.
Record t : Type := mk { isOn : bool; sharpness : R }.
End DensityProjection.

(** The attributes of the solver object that the driver touches:
    [penal] is the mutable continuation exponent. *)
Record FEsolver : Type := mkFE {
  Emax : R;
  nelx : nat;
  nely : nat;
  penal : R
}.

Definition set_penal (fe : FEsolver) (p : R) : FEsolver :=
  mkFE (Emax fe) (nelx fe) (nely fe) p.

(** ** The symmetry and projection transforms *)

(** A coordinate tensor of shape (N, 2) is a list of rows. *)
Definition coords : Type := list (R * R).

(** [applySymmetry]: column 0 is mirrored when [symYAxis] is on, column 1
    when [symXAxis] is on; the two columns are stacked and transposed
    back into rows. *)
Definition applySymmetry (symXAxis symYAxis : SymAxis.t) (x : coords)
  : coords :=
  let xv :=
    if SymAxis.isOn symYAxis
    then map (fun r => SymAxis.midPt symYAxis
                       + Rabs (fst r - SymAxis.midPt symYAxis)) x
    else map fst x in
  let yv :=
    if SymAxis.isOn symXAxis
    then map (fun r => SymAxis.midPt symXAxis
                       + Rabs (snd r - SymAxis.midPt symXAxis)) x
    else map snd x in
  combine xv yv.

(** [projectDensity]: the smoothed threshold, entry by entry. *)
Definition projectDensity (densityProjection : DensityProjection.t)
  (x : tensor) : tensor :=
  if DensityProjection.isOn densityProjection then
    let b := DensityProjection.sharpness densityProjection in
    let nmr := map (fun v => fadd (Some (tanh (0.5 * b)))
                               (lift1 tanh
                                  (fmul (Some b) (fsub v (Some 0.5))))) x in
    map (fun n => fdiv (fmul (Some 0.5) n) (Some (tanh (0.5 * b)))) nmr
  else x.

(** ** The optimisation driver *)

(** The lists of the dictionary [convergenceHistory]. *)
Record History : Type := mkHistory {
  compliance : list fval;
  vol : list fval;
  grayElems : list R
}.

(** The text of a plot title: the three formatted numbers. *)
Record Title : Type := mkTitle {
  title_iter : Z;
  title_obj : fval;
  title_vol : fval
}.

Section Driver.

(** The parameters of [TopNet] and the state of [optim.Adam]. *)
Context {Params Optim : Type}.

(** [torch.flatten(topNet(x))]: one density per coordinate row. *)
Variable forward : Params -> coords -> tensor.

(** The sensitivities [Jelem] returned by [FE.solve(rho_np)]; the solver
    reads its own [penal]. *)
Variable solve : FEsolver -> tensor -> tensor.

(** [optim.Adam(topNet.parameters(), amsgrad=True, lr=learningRate)]. *)
Variable Adam : Params -> R -> Optim.

(** [loss.backward(); clip_grad_norm_(.., nrmThreshold); optimizer.step()]:
    the loss enters as a function of the network parameters, which is
    what automatic differentiation sees. *)
Variable backward_clip_step :
  Optim -> Params -> (Params -> fval) -> R -> Optim * Params.

(** The attributes of a [TopologyOptimizer] object.  [obj0] does not
    exist before the first iteration 0 has run. *)
Record TopologyOptimizer : Type := mkTopOpt {
  FE : FEsolver;
  xy : coords;
  xyPlot : coords;
  boundaryResolution : nat;
  desiredVolumeFraction : R;
  density : tensor;
  symXAxis : SymAxis.t;
  symYAxis : SymAxis.t;
  densityProjection : DensityProjection.t;
  topNet : Params;
  optimizer : option Optim;
  objective : fval;
  obj0 : option fval;
  convergenceHistory : History
}.

Definition set_FE (t : TopologyOptimizer) (v : FEsolver) :=
  mkTopOpt v (xy t) (xyPlot t) (boundaryResolution t)
    (desiredVolumeFraction t) (density t) (symXAxis t) (symYAxis t)
    (densityProjection t) (topNet t) (optimizer t) (objective t) (obj0 t)
    (convergenceHistory t).

Definition set_density (t : TopologyOptimizer) (v : tensor) :=
  mkTopOpt (FE t) (xy t) (xyPlot t) (boundaryResolution t)
    (desiredVolumeFraction t) v (symXAxis t) (symYAxis t)
    (densityProjection t) (topNet t) (optimizer t) (objective t) (obj0 t)
    (convergenceHistory t).

Definition set_topNet (t : TopologyOptimizer) (v : Params) :=
  mkTopOpt (FE t) (xy t) (xyPlot t) (boundaryResolution t)
    (desiredVolumeFraction t) (density t) (symXAxis t) (symYAxis t)
    (densityProjection t) v (optimizer t) (objective t) (obj0 t)
    (convergenceHistory t).

Definition set_optimizer (t : TopologyOptimizer) (v : option Optim) :=
  mkTopOpt (FE t) (xy t) (xyPlot t) (boundaryResolution t)
    (desiredVolumeFraction t) (density t) (symXAxis t) (symYAxis t)
    (densityProjection t) (topNet t) v (objective t) (obj0 t)
    (convergenceHistory t).

Definition set_objective (t : TopologyOptimizer) (v : fval) :=
  mkTopOpt (FE t) (xy t) (xyPlot t) (boundaryResolution t)
    (desiredVolumeFraction t) (density t) (symXAxis t) (symYAxis t)
    (densityProjection t) (topNet t) (optimizer t) v (obj0 t)
    (convergenceHistory t).

Definition set_obj0 (t : TopologyOptimizer) (v : option fval) :=
  mkTopOpt (FE t) (xy t) (xyPlot t) (boundaryResolution t)
    (desiredVolumeFraction t) (density t) (symXAxis t) (symYAxis t)
    (densityProjection t) (topNet t) (optimizer t) (objective t) v
    (convergenceHistory t).

Definition set_convergenceHistory (t : TopologyOptimizer) (v : History) :=
  mkTopOpt (FE t) (xy t) (xyPlot t) (boundaryResolution t)
    (desiredVolumeFraction t) (density t) (symXAxis t) (symYAxis t)
    (densityProjection t) (topNet t) (optimizer t) (objective t) (obj0 t)
    v.

(** The local variables of [optimizeDesign] that outlive a pass of the
    loop: [alpha] is bound before the loop, the others are first bound
    inside the loop body and are read again after the loop. *)
Record Locals : Type := mkLocals {
  alpha : R;
  epoch : option Z;
  rho_np : option tensor;
  currentVolumeFraction : option fval;
  loss : option fval;
  relGreyElements : option R;
  titleStr : option Title
}.

(** The machine state: the object and the frame of [optimizeDesign]. *)
Definition State : Type := (TopologyOptimizer * Locals)%type.

(** [ndarray.reshape(shape)]: the number of entries must fit. *)
Definition reshape (t : tensor) (rows cols : nat) : res tensor :=
  if Nat.eqb (length t) (rows * cols) then Ok t else Raise ValueError.

(** The constants bound at the top of [optimizeDesign]. *)
Definition learningRate : R := 0.01.
Definition alphaIncrement : R := 0.05.
Definition nrmThreshold : R := 0.01.
Definition alphaMax (topOpt : TopologyOptimizer) : R :=
  100 * desiredVolumeFraction topOpt.

(** The unnormalised compliance [sum(Emax * rho**penal * Jelem)]. *)
Definition compliance_sum (E p : R) (rho Jelem : tensor) : fval :=
  fsum (map2 (fun r j => fmul (fmul (Some E) (fpow r p)) j) rho Jelem).

(** Lines 135-138: the sensitivities rescaled with the doubled exponent. *)
Definition scaled_Jelem (E p : R) (rho Jelem : tensor) : tensor :=
  map2 (fun r j => fmul (fmul (Some E) (fpow r (2 * p))) j) rho Jelem.

(** Line 140 without the division by [obj0]:
    [torch.sum(torch.div(Jelem, nn_rho**penal))]. *)
Definition objective_sum (p : R) (Jelem nn_rho : tensor) : fval :=
  fsum (map2 fdiv Jelem (map (fun r => fpow r p) nn_rho)).

(** [sum(1 for rho in rho_np if ((rho > 0.2) & (rho < 0.8)))]. *)
Definition is_grey (v : fval) : bool :=
  match v with
  | Some r => Rltb 0.2 r && Rltb r 0.8
  | None => false
  end.

Definition greyElements (rho : tensor) : nat :=
  length (filter is_grey rho).

(** Python's [/] on a float and the integer [len(rho_np)]. *)
Definition py_div_len (a : R) (n : nat) : res R :=
  if Nat.eqb n 0 then Raise ZeroDivisionError else Ok (a / INR n).

(** The exit test of line 173. *)
Definition break_test (minEpochs : Z) (ep : Z) (relGrey : R) : bool :=
  (ep >? minEpochs)%Z && Rltb relGrey 0.025.

(** One pass through the body of the [for] loop, lines 119-172. *)
Definition loop_body (ep : Z) (st : State) : res State :=
  let '(topOpt, lv) := st in
  opt <- read (AttributeError "optimizer") (optimizer topOpt) ;;
  let x := applySymmetry (symXAxis topOpt) (symYAxis topOpt) (xy topOpt) in
  let nn_rho_of (theta : Params) : tensor :=
    projectDensity (densityProjection topOpt) (forward theta x) in
  let nn_rho := nn_rho_of (topNet topOpt) in
  let rho := nn_rho in
  let topOpt := set_density topOpt rho in
  let Jelem := solve (FE topOpt) rho in
  let topOpt :=
    if (ep =? 0)%Z
    then set_obj0 topOpt
           (Some (compliance_sum (Emax (FE topOpt)) (penal (FE topOpt))
                    rho Jelem))
    else topOpt in
  let Jelem :=
    scaled_Jelem (Emax (FE topOpt)) (penal (FE topOpt)) rho Jelem in
  o0 <- read (AttributeError "obj0") (obj0 topOpt) ;;
  let objective_of (theta : Params) : fval :=
    fdiv (objective_sum (penal (FE topOpt)) Jelem (nn_rho_of theta)) o0 in
  let volConstraint_of (theta : Params) : fval :=
    fsub (fdiv (fmean (nn_rho_of theta))
            (Some (desiredVolumeFraction topOpt))) (Some 1) in
  let cvf := fmean rho in
  let topOpt := set_objective topOpt (objective_of (topNet topOpt)) in
  let a := alpha lv in
  let loss_of (theta : Params) : fval :=
    fadd (objective_of theta)
      (fmul (Some a)
         (fmul (volConstraint_of theta) (volConstraint_of theta))) in
  let a' := py_min (alphaMax topOpt) (a + alphaIncrement) in
  let '(opt', theta') :=
    backward_clip_step opt (topNet topOpt) loss_of nrmThreshold in
  let lossv := loss_of (topNet topOpt) in
  let topOpt := set_topNet (set_optimizer topOpt (Some opt')) theta' in
  relGrey <- py_div_len
               (desiredVolumeFraction topOpt * INR (greyElements rho))
               (length rho) ;;
  let h := convergenceHistory topOpt in
  let topOpt :=
    set_convergenceHistory topOpt
      (mkHistory (compliance h ++ [objective topOpt])
         (vol h ++ [cvf])
         (grayElems h ++ [relGrey])) in
  let topOpt :=
    set_FE topOpt
      (set_penal (FE topOpt) (py_min 8.0 (penal (FE topOpt) + 0.02))) in
  title <-
    (if (ep mod 20 =? 0)%Z then
       _ <- reshape rho (nelx (FE topOpt)) (nely (FE topOpt)) ;;
       Ok (Some (mkTitle ep (fmul (objective topOpt) o0) cvf))
     else Ok (titleStr lv)) ;;
  Ok (topOpt,
      mkLocals a' (Some ep) (Some rho) (Some cvf) (Some lossv)
        (Some relGrey) title).

(** The density of one iteration, lines 120-123: the network evaluated
    on the mirrored element centres, flattened and projected.  [nn_rho]
    and its detached copy [rho_np] hold these same numbers. *)
Definition current_density (topOpt : TopologyOptimizer) : tensor :=
  projectDensity (densityProjection topOpt)
    (forward (topNet topOpt)
       (applySymmetry (symXAxis topOpt) (symYAxis topOpt) (xy topOpt))).

(** The test of line 173, on the frame left by the body. *)
Definition break_cond (minEpochs : Z) (st : State) : res bool :=
  ep <- read (UnboundLocalError "epoch") (epoch (snd st)) ;;
  g <- read (UnboundLocalError "relGreyElements")
         (relGreyElements (snd st)) ;;
  Ok (break_test minEpochs ep g).

(** What a finished loop reports next to its final state: the states
    left by the passes it made, in order, and whether it was left by
    [break].  Both are a record of the execution, not program data. *)
Record LoopExit : Type := mkExit {
  final : State;
  passes : list State;
  broke : bool
}.

(** [for epoch in epochs: body; if test: break]. *)
Fixpoint for_epochs (minEpochs : Z) (epochs : list Z) (st : State)
  : res LoopExit :=
  match epochs with
  | [] => Ok (mkExit st [] false)
  | ep :: rest =>
      st' <- loop_body ep st ;;
      brk <- break_cond minEpochs st' ;;
      if brk then Ok (mkExit st' [st'] true)
      else
        r <- for_epochs minEpochs rest st' ;;
        Ok (mkExit (final r) (st' :: passes r) (broke r))
  end.

(** [ps] are the states of successive passes of the body over a prefix
    of [epochs], started in [st]. *)
Fixpoint chain (epochs : list Z) (st : State) (ps : list State)
  {struct ps} : Prop :=
  match ps, epochs with
  | [], _ => True
  | s :: ps', ep :: rest => loop_body ep st = Ok s /\ chain rest s ps'
  | _ :: _, [] => False
  end.

(** The shapes agree with the mesh: the optimiser exists, there is one
    element centre per mesh cell and at least one, and the plotting grid
    refines each cell [boundaryResolution] times in each direction. *)
Definition well_shaped (t : TopologyOptimizer) : Prop :=
  optimizer t <> None
  /\ length (xy t) = (nelx (FE t) * nely (FE t))%nat
  /\ length (xy t) <> 0%nat
  /\ length (xyPlot t)
     = (nelx (FE t) * boundaryResolution t
        * (nely (FE t) * boundaryResolution t))%nat.

(** Everything the code after the loop reads has been assigned. *)
Definition all_bound (st : State) : Prop :=
  obj0 (fst st) <> None
  /\ titleStr (snd st) <> None
  /\ epoch (snd st) <> None
  /\ currentVolumeFraction (snd st) <> None
  /\ loss (snd st) <> None
  /\ relGreyElements (snd st) <> None
  /\ exists rho, rho_np (snd st) = Some rho
                 /\ length rho
                    = (nelx (FE (fst st)) * nely (FE (fst st)))%nat.

(** Two objects agree on what no pass changes: the element centres, the
    two symmetries, the projection and the wanted volume fraction. *)
Definition same_setup (a b : TopologyOptimizer) : Prop :=
  xy a = xy b
  /\ symXAxis a = symXAxis b
  /\ symYAxis a = symYAxis b
  /\ densityProjection a = densityProjection b
  /\ desiredVolumeFraction a = desiredVolumeFraction b.

(** [range(n)]. *)
Definition py_range (n : Z) : list Z :=
  map Z.of_nat (seq 0 (Z.to_nat n)).

(** The state in which the loop is entered, lines 106-116. *)
Definition initial_state (topOpt : TopologyOptimizer) : State :=
  let topOpt := set_convergenceHistory topOpt (mkHistory [] [] []) in
  let topOpt :=
    set_optimizer topOpt (Some (Adam (topNet topOpt) learningRate)) in
  (topOpt, mkLocals alphaIncrement None None None None None None).

(** Lines 175-210: the final plots and prints read the loop's
    variables, the density is re-evaluated on the plotting grid, and
    the history is returned. *)
Definition after_loop (st : State) : res (History * State) :=
  let '(topOpt, lv) := st in
  rho <- read (UnboundLocalError "rho_np") (rho_np lv) ;;
  _ <- reshape rho (nelx (FE topOpt)) (nely (FE topOpt)) ;;
  _ <- read (UnboundLocalError "titleStr") (titleStr lv) ;;
  ep <- read (UnboundLocalError "epoch") (epoch lv) ;;
  o0 <- read (AttributeError "obj0") (obj0 topOpt) ;;
  cvf <- read (UnboundLocalError "currentVolumeFraction")
           (currentVolumeFraction lv) ;;
  _ <- read (UnboundLocalError "loss") (loss lv) ;;
  _ <- read (UnboundLocalError "relGreyElements") (relGreyElements lv) ;;
  let x :=
    applySymmetry (symXAxis topOpt) (symYAxis topOpt) (xyPlot topOpt) in
  let rho := projectDensity (densityProjection topOpt)
               (forward (topNet topOpt) x) in
  let title := mkTitle ep (fmul (objective topOpt) o0) cvf in
  _ <- reshape rho (nelx (FE topOpt) * boundaryResolution topOpt)
         (nely (FE topOpt) * boundaryResolution topOpt) ;;
  Ok (convergenceHistory topOpt,
      (topOpt,
       mkLocals (alpha lv) (epoch lv) (Some rho) (currentVolumeFraction lv)
         (loss lv) (relGreyElements lv) (Some title))).

(** [optimizeDesign], with the record of its loop: the returned
    history, the state at the [return], and the loop's report. *)
Definition optimizeDesign_run (topOpt : TopologyOptimizer)
  (maxEpochs minEpochs : Z) : res (History * State * LoopExit) :=
  r <- for_epochs minEpochs (py_range maxEpochs) (initial_state topOpt) ;;
  hs <- after_loop (final r) ;;
  Ok (fst hs, snd hs, r).

(** [optimizeDesign(topOpt, maxEpochs, minEpochs)]: the returned
    history, or the exception that ends the call. *)
Definition optimizeDesign (topOpt : TopologyOptimizer)
  (maxEpochs minEpochs : Z) : res History :=
  r <- optimizeDesign_run topOpt maxEpochs minEpochs ;;
  Ok (fst (fst r)).

End Driver.

(** ** The properties the specification states *)

Definition penal_of {Params Optim : Type} (st : @State Params Optim) : R :=
  penal (FE (fst st)).

Definition alpha_of {Params Optim : Type} (st : @State Params Optim) : R :=
  alpha (snd st).

(** Each entry is at most the next one. *)
Fixpoint nondecreasing (l : list R) : Prop :=
  match l with
  | a :: (b :: _) as rest => a <= b /\ nondecreasing rest
  | _ => True
  end.

(** The continuation schedule over the states a run goes through:
    [penal] and [alpha] never decrease, [penal] stays at or below 8.0 and
    [alpha] at or below [100 * desiredVolumeFraction]. *)
Definition schedule_ok {Params Optim : Type} (dvf : R)
  (sts : list (@State Params Optim)) : Prop :=
  nondecreasing (map penal_of sts)
  /\ Forall (fun st => penal_of st <= 8.0) sts
  /\ nondecreasing (map alpha_of sts)
  /\ Forall (fun st => alpha_of st <= 100 * dvf) sts.

(** A finite, strictly positive tensor entry. *)
Definition positive (v : fval) : Prop := exists r, v = Some r /\ 0 < r.

(** [sum(Emax * rho**(2*penal) * sensitivity / rho**penal) / obj0]. *)
Definition doubled_exponent_objective (E p : R) (rho Jelem : tensor)
  (o0 : fval) : fval :=
  fdiv
    (fsum
       (map2
          (fun r j =>
             fdiv (fmul (fmul (Some E) (fpow r (2 * p))) j) (fpow r p))
          rho Jelem))
    o0.

(** [sum(Emax * rho**penal * sensitivity) / obj0]. *)
Definition plain_objective (E p : R) (rho Jelem : tensor) (o0 : fval)
  : fval :=
  fdiv (compliance_sum E p rho Jelem) o0.

(** The compliance in physical units: the objective of one iteration
    before it is divided by [obj0]. *)
Definition physical_compliance (E p : R) (rho Jelem : tensor) : fval :=
  objective_sum p (scaled_Jelem E p rho Jelem) rho.

(** The mirror image of an abscissa or ordinate about [m]. *)
Definition mirror (m v : R) : R := 2 * m - v.

(** The symmetry property as the specification words it: with the X-axis
    symmetry on, the first coordinate is folded about the midpoint and a
    point and its mirror image in the first coordinate are sent to the
    same place. *)
Definition x_symmetry_folds_first (sx sy : SymAxis.t) (x y : R) : Prop :=
  SymAxis.isOn sx = true ->
  map fst (applySymmetry sx sy [(x, y)])
  = [SymAxis.midPt sx + Rabs (x - SymAxis.midPt sx)]
  /\ applySymmetry sx sy [(mirror (SymAxis.midPt sx) x, y)]
     = applySymmetry sx sy [(x, y)].

(** ** Concrete collaborators *)

(** A network whose density at a point is the point's first coordinate, a
    solver with unit sensitivities and an optimiser that leaves the
    parameters where they are, on a mesh of [nx] by [ny] elements. *)
Module Demo.

Definition forward (_ : unit) (c : coords) : tensor :=
  map (fun r => Some (fst r)) c.

Definition solve (_ : FEsolver) (rho : tensor) : tensor :=
  map (fun _ => Some 1) rho.

Definition Adam (_ : unit) (_ : R) : unit := tt.

Definition backward_clip_step (o : unit) (theta : unit)
  (_ : unit -> fval) (_ : R) : unit * unit := (o, theta).

Definition symOff : SymAxis.t := SymAxis.mk false 0.
Definition projOff : DensityProjection.t := DensityProjection.mk false 1.

(** The object [__init__] builds: no mirror, no projection, the plotting
    grid three times finer than the mesh. *)
Definition topOpt (pts : coords) (nx ny : nat) (E p0 dvf : R)
  : @TopologyOptimizer unit unit :=
  mkTopOpt (mkFE E nx ny p0) pts
    (repeat (1 / 2, 0) (nx * 3 * (ny * 3))) 3 dvf
    (map (fun _ => Some dvf) pts) symOff symOff projOff tt None (Some 0)
    None (mkHistory [] [] []).

(** One element of density 1/2. *)
Definition one_element (E p0 dvf : R) : @TopologyOptimizer unit unit :=
  topOpt [(1 / 2, 0)] 1 1 E p0 dvf.

(** One element of density 1, which is not gray. *)
Definition solid_element : @TopologyOptimizer unit unit :=
  topOpt [(1, 0)] 1 1 1 1 (1 / 2).

(** Two elements, the first of density 0. *)
Definition two_elements : @TopologyOptimizer unit unit :=
  topOpt [(0, 0); (1 / 2, 0)] 2 1 1 1 (1 / 2).

(** A network that answers the density 1/2 everywhere. *)
Definition half_everywhere (_ : unit) (c : coords) : tensor :=
  map (fun _ => Some (1 / 2)) c.

(** A mesh without any element. *)
Definition empty_mesh : @TopologyOptimizer unit unit :=
  topOpt [] 0 0 1 1 (1 / 2).

(** One element centre handed to a mesh of two cells. *)
Definition misfit : @TopologyOptimizer unit unit :=
  topOpt [(1 / 2, 0)] 2 1 1 1 (1 / 2).

(** The driver with these collaborators plugged in. *)
Abbreviation run :=
  (optimizeDesign_run forward solve Adam backward_clip_step).
Abbreviation call :=
  (optimizeDesign forward solve Adam backward_clip_step).
Abbreviation body := (loop_body forward solve backward_clip_step).
Abbreviation start := (initial_state Adam).

End Demo.

(** ** Closed forms *)

(** Lines 100-101 on one finite entry [x], for the sharpness [b]. *)
Definition projected (b x : R) : R :=
  0.5 * (tanh (0.5 * b) + tanh (b * (x - 0.5))) / tanh (0.5 * b).

(** The fold of line 86 (and of line 90) about the midpoint [m]. *)
Definition fold_about (m v : R) : R := m + Rabs (v - m).

(** A finite tensor entry between 0 and 1. *)
Definition in_unit (v : fval) : Prop := exists r, v = Some r /\ 0 <= r <= 1.

(** A tensor entry of a binary design: void, solid, the midpoint, or a
    NaN. *)
Definition binary_entry (v : fval) : Prop :=
  v = None \/ v = Some 0 \/ v = Some 0.5 \/ v = Some 1.

(** Solid and void exchanged: [1 - x], entry by entry. *)
Definition complement (t : tensor) : tensor :=
  map (lift1 (fun x => 1 - x)) t.

(** * Facts *)

(** ** Comparisons, [min] and powers *)

Lemma Rltb_true (x y : R) : Rltb x y = true <-> x < y.
Proof.
  unfold Rltb. destruct (Rlt_dec x y); split; intros; try easy.
Qed.

Lemma Rltb_false (x y : R) : Rltb x y = false <-> y <= x.
Proof.
  unfold Rltb. destruct (Rlt_dec x y); split; intros; try easy; lra.
Qed.

Lemma Reqb_true (x y : R) : Reqb x y = true <-> x = y.
Proof.
  unfold Reqb. destruct (Req_dec_T x y); split; intros; easy.
Qed.

Lemma Reqb_false (x y : R) : Reqb x y = false <-> x <> y.
Proof.
  unfold Reqb. destruct (Req_dec_T x y); split; intros; easy.
Qed.

Lemma py_min_Rmin (a b : R) : py_min a b = Rmin a b.
Proof.
  unfold py_min, Rmin.
  destruct (Rltb b a) eqn:H; destruct (Rle_dec a b); try reflexivity.
  - apply Rltb_true in H. lra.
  - apply Rltb_false in H. lra.
Qed.

Lemma py_min_le_l (a b : R) : py_min a b <= a.
Proof. rewrite py_min_Rmin. apply Rmin_l. Qed.

Lemma py_min_glb (a b c : R) : c <= a -> c <= b -> c <= py_min a b.
Proof. rewrite py_min_Rmin. apply Rmin_glb. Qed.

Lemma rpow_pos (x p : R) : 0 < x -> rpow x p = Some (Rpower x p).
Proof.
  intros H. unfold rpow.
  destruct (Rltb 0 x) eqn:E; [reflexivity|].
  apply Rltb_false in E. lra.
Qed.

Lemma rpow_zero (p : R) : 0 < p -> rpow 0 p = Some 0.
Proof.
  intros H. unfold rpow.
  destruct (Rltb 0 0) eqn:E0; [apply Rltb_true in E0; lra|].
  destruct (Reqb p 0) eqn:Ep; [apply Reqb_true in Ep; lra|].
  destruct (Reqb 0 0) eqn:Ez; [|apply Reqb_false in Ez; lra].
  destruct (Rltb 0 p) eqn:E1; [reflexivity|].
  apply Rltb_false in E1. lra.
Qed.

Lemma Rpower_pos (x p : R) : 0 < Rpower x p.
Proof. unfold Rpower. apply exp_pos. Qed.

Lemma Rpower_double (x p : R) :
  Rpower x (2 * p) = Rpower x p * Rpower x p.
Proof.
  replace (2 * p) with (p + p) by lra. apply Rpower_plus.
Qed.

Lemma fdiv_some (x y : R) : y <> 0 -> fdiv (Some x) (Some y) = Some (x / y).
Proof.
  intros H. unfold fdiv.
  destruct (Reqb y 0) eqn:E; [apply Reqb_true in E; contradiction|easy].
Qed.

Lemma fdiv_some_aux (x y : R) :
  y <> 0 -> (if Reqb y 0 then None else Some (x / y)) = Some (x / y).
Proof.
  intros H. destruct (Reqb y 0) eqn:E; [|reflexivity].
  apply Reqb_true in E. contradiction.
Qed.

Lemma fdiv_zero (x : R) : fdiv (Some x) (Some 0) = None.
Proof.
  unfold fdiv.
  destruct (Reqb 0 0) eqn:E; [easy|apply Reqb_false in E; lra].
Qed.

Lemma is_grey_spec (v : fval) :
  is_grey v = true <-> exists r, v = Some r /\ 0.2 < r /\ r < 0.8.
Proof.
  destruct v as [r|]; simpl.
  - rewrite andb_true_iff, !Rltb_true. split.
    + intros H. exists r. tauto.
    + intros [r' [E H]]. inversion E. subst. tauto.
  - split; [discriminate|]. intros [r [E _]]. discriminate.
Qed.

(** ** Lists *)

Lemma combine_fst_snd {A B : Type} (l : list (A * B)) :
  combine (map fst l) (map snd l) = l.
Proof.
  induction l as [|[a b] l IH]; simpl; [reflexivity|].
  now rewrite IH.
Qed.

Lemma last_cons {A : Type} (l : list A) :
  forall a d : A, last (a :: l) d = last l a.
Proof.
  induction l as [|b l IH]; intros a d; [reflexivity|].
  change (last (b :: l) d = last (b :: l) a).
  now rewrite (IH b d), (IH b a).
Qed.

Lemma map2_fuse {A B C D E : Type} (f : A -> B -> C) (g : A -> D)
  (h : C -> D -> E) (l : list A) (m : list B) :
  map2 h (map2 f l m) (map g l) = map2 (fun a b => h (f a b) (g a)) l m.
Proof.
  revert m. induction l as [|a l IH]; intros [|b m]; simpl; try reflexivity.
  now rewrite IH.
Qed.

Lemma map2_ext_Forall {A B C : Type} (P : A -> Prop) (f g : A -> B -> C)
  (l : list A) (m : list B) :
  Forall P l -> (forall a b, P a -> f a b = g a b) ->
  map2 f l m = map2 g l m.
Proof.
  intros H E. revert m.
  induction H as [|a l Ha Hl IH]; intros [|b m]; simpl; try reflexivity.
  now rewrite IH, E.
Qed.

(** ** The transforms *)

Lemma applySymmetry_off (sx sy : SymAxis.t) (x : coords) :
  SymAxis.isOn sx = false -> SymAxis.isOn sy = false ->
  applySymmetry sx sy x = x.
Proof.
  intros Hx Hy. unfold applySymmetry. rewrite Hx, Hy.
  apply combine_fst_snd.
Qed.

Lemma applySymmetry_length (sx sy : SymAxis.t) (x : coords) :
  length (applySymmetry sx sy x) = length x.
Proof.
  unfold applySymmetry. rewrite length_combine.
  destruct (SymAxis.isOn sy), (SymAxis.isOn sx);
    rewrite !length_map; apply Nat.min_id.
Qed.

Lemma projectDensity_length (dp : DensityProjection.t) (x : tensor) :
  length (projectDensity dp x) = length x.
Proof.
  unfold projectDensity. destruct (DensityProjection.isOn dp).
  - now rewrite !length_map.
  - reflexivity.
Qed.

Lemma Rabs_mirror (m v : R) : Rabs (mirror m v - m) = Rabs (v - m).
Proof.
  unfold mirror. replace (2 * m - v - m) with (- (v - m)) by lra.
  apply Rabs_Ropp.
Qed.

(** C9: [setDevice] answers the CPU whenever [overrideGPU] is true, which
    is what [__init__] passes when the keyword is left out, whether or
    not CUDA is available; it answers the GPU exactly when CUDA is
    available and [overrideGPU] is false. *)
Theorem setDevice_cpu_unless_cuda_and_no_override (cuda o : bool) :
  setDevice cuda true = cpu
  /\ init_device cuda None = cpu
  /\ (setDevice cuda o = cuda0 <-> cuda = true /\ o = false).
Proof.
  unfold init_device, overrideGPU_default, setDevice.
  destruct cuda, o; simpl; repeat split; try easy; intros [? ?]; easy.
Qed.

(** C7: [projectDensity] is the identity on every tensor when the
    projection is switched off, and [applySymmetry] is the identity on
    every coordinate sequence when both symmetries are switched off. *)
Theorem transforms_identity_when_off (dp : DensityProjection.t)
  (sx sy : SymAxis.t) (x : tensor) (c : coords) :
  (DensityProjection.isOn dp = false -> projectDensity dp x = x)
  /\ (SymAxis.isOn sx = false -> SymAxis.isOn sy = false ->
      applySymmetry sx sy c = c).
Proof.
  split.
  - intros H. unfold projectDensity. now rewrite H.
  - apply applySymmetry_off.
Qed.

(** Both transforms switched off, on a tensor with a NaN entry and on two
    points. *)
Lemma transforms_identity_when_off_witness :
  projectDensity Demo.projOff [Some (1 / 4); None] = [Some (1 / 4); None]
  /\ applySymmetry Demo.symOff Demo.symOff [(1, 2); (3, 4)]
     = [(1, 2); (3, 4)].
Proof.
  split.
  - apply (proj1 (transforms_identity_when_off Demo.projOff Demo.symOff
                    Demo.symOff [Some (1 / 4); None] [])).
    reflexivity.
  - apply (proj2 (transforms_identity_when_off Demo.projOff Demo.symOff
                    Demo.symOff [] [(1, 2); (3, 4)])); reflexivity.
Defined.

(** C5, as amended: it is the Y-axis symmetry ([symYAxis]) that folds the
    first coordinate about its midpoint, and it sends a point and its
    mirror image in the first coordinate to the same place; the X-axis
    symmetry ([symXAxis]) does the same to the second coordinate. *)
Theorem applySymmetry_folds_across_axis (sx sy : SymAxis.t) (x y : R) :
  (SymAxis.isOn sy = true ->
   map fst (applySymmetry sx sy [(x, y)])
   = [SymAxis.midPt sy + Rabs (x - SymAxis.midPt sy)]
   /\ applySymmetry sx sy [(mirror (SymAxis.midPt sy) x, y)]
      = applySymmetry sx sy [(x, y)])
  /\ (SymAxis.isOn sx = true ->
      map snd (applySymmetry sx sy [(x, y)])
      = [SymAxis.midPt sx + Rabs (y - SymAxis.midPt sx)]
      /\ applySymmetry sx sy [(x, mirror (SymAxis.midPt sx) y)]
         = applySymmetry sx sy [(x, y)]).
Proof.
  unfold applySymmetry.
  destruct (SymAxis.isOn sx), (SymAxis.isOn sy); simpl;
    split; intros H; try discriminate H;
    rewrite ?Rabs_mirror; split; reflexivity.
Qed.

(** Both symmetries on about the midpoint 1, at the point (0, 3). *)
Lemma applySymmetry_folds_across_axis_witness :
  applySymmetry (SymAxis.mk true 1) (SymAxis.mk true 1) [(mirror 1 0, 3)]
  = applySymmetry (SymAxis.mk true 1) (SymAxis.mk true 1) [(0, 3)]
  /\ applySymmetry (SymAxis.mk true 1) (SymAxis.mk true 1) [(0, mirror 1 3)]
     = applySymmetry (SymAxis.mk true 1) (SymAxis.mk true 1) [(0, 3)].
Proof.
  split.
  - apply (proj1 (applySymmetry_folds_across_axis (SymAxis.mk true 1)
                    (SymAxis.mk true 1) 0 3)).
    reflexivity.
  - apply (proj2 (applySymmetry_folds_across_axis (SymAxis.mk true 1)
                    (SymAxis.mk true 1) 0 3)).
    reflexivity.
Defined.

(** C5, as the specification words it, fails: with only the X-axis
    symmetry on, about the midpoint 1, the point (0, 0) keeps its first
    coordinate 0 (the folded value would be 2) and goes to (0, 2), while
    its mirror image (2, 0) goes to (2, 2). *)
Lemma x_symmetry_leaves_first_coordinate :
  applySymmetry (SymAxis.mk true 1) Demo.symOff [(0, 0)] = [(0, 2)]
  /\ applySymmetry (SymAxis.mk true 1) Demo.symOff [(mirror 1 0, 0)]
     = [(2, 2)]
  /\ ~ x_symmetry_folds_first (SymAxis.mk true 1) Demo.symOff 0 0.
Proof.
  assert (A : Rabs (0 - 1) = 1).
  { rewrite Rabs_left by lra. lra. }
  assert (B : applySymmetry (SymAxis.mk true 1) Demo.symOff [(0, 0)]
              = [(0, 2)]).
  { unfold applySymmetry. simpl. rewrite A. repeat f_equal; lra. }
  split; [exact B|]. split.
  - unfold applySymmetry, mirror. simpl. rewrite A. repeat f_equal; lra.
  - intros C. destruct (C eq_refl) as [C1 _].
    rewrite B in C1. simpl in C1. rewrite A in C1.
    injection C1 as C1. lra.
Qed.

(** ** One pass of the loop *)

Section DriverFacts.

Context {Params Optim : Type}.
Variable forward : Params -> coords -> tensor.
Variable solve : FEsolver -> tensor -> tensor.
Variable Adam : Params -> R -> Optim.
Variable backward_clip_step :
  Optim -> Params -> (Params -> fval) -> R -> Optim * Params.

Local Abbreviation body := (loop_body forward solve backward_clip_step).
Local Abbreviation rho_of := (current_density forward).
Local Abbreviation loop := (for_epochs forward solve backward_clip_step).
Local Abbreviation linked := (chain forward solve backward_clip_step).
Local Abbreviation start := (initial_state Adam).
Local Abbreviation finish := (after_loop forward).
Local Abbreviation run :=
  (optimizeDesign_run forward solve Adam backward_clip_step).
Local Abbreviation call :=
  (optimizeDesign forward solve Adam backward_clip_step).

(** What a pass that ends normally has done to the state. *)
Lemma loop_body_inv (ep : Z) (topOpt : TopologyOptimizer) (lv : Locals)
  (st' : State) :
  body ep (topOpt, lv) = Ok st' ->
  let rho := rho_of topOpt in
  let J := solve (FE topOpt) rho in
  let E := Emax (FE topOpt) in
  let p := penal (FE topOpt) in
  let h := convergenceHistory topOpt in
  let g :=
    desiredVolumeFraction topOpt * INR (greyElements rho)
    / INR (length rho) in
  exists o0 : fval,
    obj0 (fst st') = Some o0
    /\ (if (ep =? 0)%Z then o0 = compliance_sum E p rho J
        else obj0 topOpt = Some o0)
    /\ objective (fst st')
       = fdiv (objective_sum p (scaled_Jelem E p rho J) rho) o0
    /\ convergenceHistory (fst st')
       = mkHistory (compliance h ++ [objective (fst st')])
           (vol h ++ [fmean rho]) (grayElems h ++ [g])
    /\ FE (fst st') = set_penal (FE topOpt) (py_min 8.0 (p + 0.02))
    /\ alpha (snd st')
       = py_min (alphaMax topOpt) (alpha lv + alphaIncrement)
    /\ epoch (snd st') = Some ep
    /\ rho_np (snd st') = Some rho
    /\ relGreyElements (snd st') = Some g
    /\ currentVolumeFraction (snd st') = Some (fmean rho)
    /\ loss (snd st') <> None
    /\ (if (ep mod 20 =? 0)%Z
        then titleStr (snd st') <> None
             /\ length rho = (nelx (FE topOpt) * nely (FE topOpt))%nat
        else titleStr (snd st') = titleStr lv)
    /\ length rho <> 0%nat
    /\ optimizer (fst st') <> None
    /\ density (fst st') = rho
    /\ xy (fst st') = xy topOpt
    /\ xyPlot (fst st') = xyPlot topOpt
    /\ boundaryResolution (fst st') = boundaryResolution topOpt
    /\ desiredVolumeFraction (fst st') = desiredVolumeFraction topOpt
    /\ symXAxis (fst st') = symXAxis topOpt
    /\ symYAxis (fst st') = symYAxis topOpt
    /\ densityProjection (fst st') = densityProjection topOpt.
Proof.
  intros H rho J E p h g.
  unfold loop_body in H.
  destruct (optimizer topOpt) as [opt|] eqn:Hopt; [|discriminate H].
  cbn [read bind] in H.
  fold (rho_of topOpt) in H. fold rho in H.
  destruct (ep =? 0)%Z eqn:E0.
  - cbn [obj0 set_obj0 set_density read bind FE Emax penal] in H.
    fold J E p in H.
    match type of H with
    | context [backward_clip_step ?a ?b ?c ?d] =>
        destruct (backward_clip_step a b c d) as [opt' theta']
    end.
    unfold py_div_len in H.
    destruct (Nat.eqb (length rho) 0) eqn:Hlen; [discriminate H|].
    cbn [bind] in H.
    apply Nat.eqb_neq in Hlen.
    exists (compliance_sum E p rho J).
    destruct (ep mod 20 =? 0)%Z eqn:E20.
    + unfold reshape in H. cbn in H.
      destruct (Nat.eqb (length rho) (nelx (FE topOpt) * nely (FE topOpt)))
        eqn:Hshape; [|discriminate H].
      apply Nat.eqb_eq in Hshape.
      cbn in H. injection H as <-. cbn.
      repeat split; try reflexivity; try assumption; discriminate.
    + cbn in H. injection H as <-. cbn.
      repeat split; try reflexivity; try assumption; discriminate.
  - cbn [obj0 set_obj0 set_density read bind FE Emax penal] in H.
    destruct (obj0 topOpt) as [o0|] eqn:Ho0; [|discriminate H].
    cbn [read bind] in H.
    fold J E p in H.
    match type of H with
    | context [backward_clip_step ?a ?b ?c ?d] =>
        destruct (backward_clip_step a b c d) as [opt' theta']
    end.
    unfold py_div_len in H.
    destruct (Nat.eqb (length rho) 0) eqn:Hlen; [discriminate H|].
    cbn [bind] in H.
    apply Nat.eqb_neq in Hlen.
    exists o0.
    destruct (ep mod 20 =? 0)%Z eqn:E20.
    + unfold reshape in H. cbn in H.
      destruct (Nat.eqb (length rho) (nelx (FE topOpt) * nely (FE topOpt)))
        eqn:Hshape; [|discriminate H].
      apply Nat.eqb_eq in Hshape.
      cbn in H. injection H as <-. cbn. rewrite Ho0.
      repeat split; try reflexivity; try assumption; discriminate.
    + cbn in H. injection H as <-. cbn. rewrite Ho0.
      repeat split; try reflexivity; try assumption; discriminate.
Qed.

(** When a pass ends normally. *)
Lemma loop_body_total (ep : Z) (topOpt : TopologyOptimizer) (lv : Locals) :
  optimizer topOpt <> None ->
  (ep = 0%Z \/ obj0 topOpt <> None) ->
  length (rho_of topOpt) <> 0%nat ->
  length (rho_of topOpt) = (nelx (FE topOpt) * nely (FE topOpt))%nat ->
  exists st', body ep (topOpt, lv) = Ok st'.
Proof.
  intros Hopt Hobj Hlen Hshape.
  unfold loop_body.
  destruct (optimizer topOpt) as [opt|]; [|contradiction].
  cbn [read bind].
  fold (rho_of topOpt).
  assert (X : exists o0,
             read (AttributeError "obj0")
               (obj0
                  (if (ep =? 0)%Z
                   then
                     set_obj0 (set_density topOpt (rho_of topOpt))
                       (Some
                          (compliance_sum
                             (Emax (FE (set_density topOpt (rho_of topOpt))))
                             (penal (FE (set_density topOpt (rho_of topOpt))))
                             (rho_of topOpt)
                             (solve (FE (set_density topOpt (rho_of topOpt)))
                                (rho_of topOpt))))
                   else set_density topOpt (rho_of topOpt)))
             = Ok o0).
  { destruct (ep =? 0)%Z eqn:E0.
    - eexists. reflexivity.
    - apply Z.eqb_neq in E0. destruct Hobj as [Hobj|Hobj]; [contradiction|].
      cbn. destruct (obj0 topOpt) as [o|]; [|contradiction].
      eexists. reflexivity. }
  destruct X as [o0 ->]. cbn [bind].
  match goal with
  | |- context [backward_clip_step ?a ?b ?c ?d] =>
      destruct (backward_clip_step a b c d) as [opt' theta']
  end.
  unfold py_div_len.
  apply Nat.eqb_neq in Hlen. rewrite Hlen. cbn [bind].
  unfold reshape.
  replace (nelx _) with (nelx (FE topOpt))
    by (destruct (ep =? 0)%Z; reflexivity).
  replace (nely _) with (nely (FE topOpt))
    by (destruct (ep =? 0)%Z; reflexivity).
  apply Nat.eqb_eq in Hshape. rewrite Hshape.
  destruct (ep mod 20 =? 0)%Z; cbn [bind]; eexists; reflexivity.
Qed.

Lemma break_test_spec (minEpochs ep : Z) (g : R) :
  break_test minEpochs ep g = true <-> (ep > minEpochs)%Z /\ g < 0.025.
Proof.
  unfold break_test. rewrite andb_true_iff, Rltb_true.
  rewrite Z.gtb_ltb, Z.ltb_lt. intuition lia.
Qed.

Lemma break_cond_after_body (minEpochs ep : Z) (st st' : State) :
  body ep st = Ok st' ->
  exists g, relGreyElements (snd st') = Some g
            /\ break_cond minEpochs st' = Ok (break_test minEpochs ep g).
Proof.
  destruct st as [topOpt lv]. intros H.
  destruct (loop_body_inv _ _ _ _ H)
    as (o0 & _ & _ & _ & _ & _ & _ & Hep & _ & Hg & _).
  eexists. split; [exact Hg|].
  unfold break_cond. now rewrite Hep, Hg.
Qed.

(** ** The loop *)

(** The shape of a finished loop: its passes are linked by the body, the
    final state is the last of them, every pass but a last one that
    breaks fails the exit test, and a loop that was not left by [break]
    has made a pass for every epoch. *)
Lemma for_epochs_inv (minEpochs : Z) (epochs : list Z) :
  forall (st : State) (r : LoopExit),
    loop minEpochs epochs st = Ok r ->
    linked epochs st (passes r)
    /\ final r = last (passes r) st
    /\ (length (passes r) <= length epochs)%nat
    /\ (broke r = false -> length (passes r) = length epochs)
    /\ (broke r = true -> passes r <> [])
    /\ (forall i s, nth_error (passes r) i = Some s ->
        exists b, break_cond minEpochs s = Ok b
                  /\ (b = true <->
                      S i = length (passes r) /\ broke r = true)).
Proof.
  induction epochs as [|ep rest IH]; intros st r H; simpl in H.
  - injection H as <-. simpl. repeat split; try lia; try discriminate.
    intros [|i] s Hs; discriminate Hs.
  - destruct (body ep st) as [st'|e] eqn:Hb; [|discriminate H].
    cbn [bind] in H.
    destruct (break_cond_after_body minEpochs _ _ _ Hb) as (g & Hg & Hc).
    rewrite Hc in H. cbn [bind] in H.
    destruct (break_test minEpochs ep g) eqn:Ht.
    + injection H as <-. simpl.
      repeat split; try assumption; try lia; try discriminate.
      intros [|[|i]] s Hs; try discriminate Hs.
      injection Hs as <-. exists true. rewrite Hc. tauto.
    + destruct (loop minEpochs rest st') as [r'|e] eqn:Hr;
        [|discriminate H].
      cbn [bind] in H. injection H as <-.
      destruct (IH _ _ Hr) as (Hl & Hf & Hn & He & Hne & Hi).
      cbn [passes final broke]. repeat split.
      * exact Hb.
      * exact Hl.
      * rewrite Hf. symmetry. apply last_cons.
      * simpl. lia.
      * intros Hbr. simpl. now rewrite He.
      * discriminate.
      * intros [|i] s Hs.
        -- injection Hs as <-. exists false. rewrite Hc. split; [easy|].
           split; [discriminate|]. intros [Hlen Hbr].
           simpl in Hlen. injection Hlen as Hlen.
           destruct (passes r'); [|discriminate Hlen].
           now destruct (Hne Hbr).
        -- simpl in Hs. destruct (Hi _ _ Hs) as (b & Hb' & Hiff).
           exists b. split; [exact Hb'|]. simpl. rewrite Hiff.
           split; intros [A B]; split; try assumption; lia.
Qed.

(** A property [P] kept by every pass over the epochs of the list, and
    what each pass establishes on the way. *)
Lemma linked_nth (P : State -> Prop) (Q : Z -> State -> State -> Prop) :
  forall (ps : list State) (epochs : list Z) (st : State),
    (forall ep s s', In ep epochs -> P s -> body ep s = Ok s' ->
                     P s' /\ Q ep s s') ->
    P st -> linked epochs st ps ->
    P (last ps st)
    /\ forall i s, nth_error ps i = Some s ->
                   exists ep prev,
                     nth_error epochs i = Some ep
                     /\ nth_error (st :: ps) i = Some prev
                     /\ Q ep prev s.
Proof.
  induction ps as [|s1 ps IH]; intros epochs st Hstep HP Hl.
  - split; [exact HP|]. intros [|i] s Hs; discriminate Hs.
  - destruct epochs as [|ep rest]; [contradiction Hl|].
    destruct Hl as [Hb Hl].
    destruct (Hstep ep st s1 (or_introl eq_refl) HP Hb) as [HP1 HQ1].
    destruct (IH rest s1) as [HPl Hn]; try assumption.
    { intros e s s' Hin. apply Hstep. now right. }
    split.
    + now rewrite last_cons.
    + intros [|i] s Hs.
      * injection Hs as <-. exists ep, st. now repeat split.
      * destruct (Hn _ _ Hs) as (e & prev & He & Hp & Hq).
        exists e, prev. now repeat split.
Qed.

(** Each pass appends one entry to each list of the history. *)
Lemma linked_history_length :
  forall (ps : list State) (epochs : list Z) (st : State),
    linked epochs st ps ->
    let h0 := convergenceHistory (fst st) in
    let h := convergenceHistory (fst (last ps st)) in
    length (compliance h) = (length (compliance h0) + length ps)%nat
    /\ length (vol h) = (length (vol h0) + length ps)%nat
    /\ length (grayElems h) = (length (grayElems h0) + length ps)%nat.
Proof.
  induction ps as [|s1 ps IH]; intros epochs st Hl; simpl.
  - repeat split; lia.
  - destruct epochs as [|ep rest]; [contradiction Hl|].
    destruct Hl as [Hb Hl]. destruct st as [topOpt lv].
    destruct (loop_body_inv _ _ _ _ Hb)
      as (o0 & _ & _ & _ & Hh & _).
    specialize (IH rest s1 Hl). cbn zeta in IH.
    rewrite Hh in IH. cbn [compliance vol grayElems] in IH.
    rewrite !length_app in IH. cbn [length] in IH.
    change (match ps with [] => s1 | _ :: _ => last ps (topOpt, lv) end)
      with (last (s1 :: ps) (topOpt, lv)).
    rewrite last_cons. cbn [fst].
    destruct IH as (A & B & C). repeat split; lia.
Qed.

(** The continuation schedule along linked passes that start at or below
    the two caps. *)
Lemma linked_schedule :
  forall (ps : list State) (epochs : list Z) (st : State),
    linked epochs st ps ->
    penal_of st <= 8.0 ->
    alpha_of st <= 100 * desiredVolumeFraction (fst st) ->
    schedule_ok (desiredVolumeFraction (fst st)) (st :: ps).
Proof.
  induction ps as [|s1 ps IH]; intros epochs st Hl Hp Ha.
  - unfold schedule_ok. simpl. repeat split; try constructor; auto.
  - destruct epochs as [|ep rest]; [contradiction Hl|].
    destruct Hl as [Hb Hl]. destruct st as [topOpt lv].
    destruct (loop_body_inv _ _ _ _ Hb)
      as (o0 & _ & _ & _ & _ & HFE & Hal & H).
    destruct H as (_ & _ & _ & _ & _ & _ & _ & _ & _ & _ & _ & _ & Hd & _).
    unfold penal_of, alpha_of in *. cbn [fst snd] in *.
    assert (Hp1 : penal (FE (fst s1)) <= 8.0).
    { rewrite HFE. cbn [penal set_penal]. apply py_min_le_l. }
    assert (Hp2 : penal (FE topOpt) <= penal (FE (fst s1))).
    { rewrite HFE. cbn [penal set_penal]. apply py_min_glb; lra. }
    assert (Ha1 : alpha (snd s1) <= 100 * desiredVolumeFraction topOpt).
    { rewrite Hal. apply py_min_le_l. }
    assert (Ha2 : alpha lv <= alpha (snd s1)).
    { rewrite Hal. unfold alphaMax, alphaIncrement.
      apply py_min_glb; lra. }
    specialize (IH rest s1 Hl Hp1).
    rewrite Hd in IH. specialize (IH Ha1).
    destruct IH as (I1 & I2 & I3 & I4).
    unfold schedule_ok. split; [|split; [|split]].
    + cbn [map]. split; [exact Hp2|exact I1].
    + constructor; [exact Hp|exact I2].
    + cbn [map]. split; [exact Ha2|exact I3].
    + constructor; [exact Ha|exact I4].
Qed.

(** ** [range] *)

Lemma py_range_length (n : Z) : length (py_range n) = Z.to_nat n.
Proof. unfold py_range. now rewrite length_map, length_seq. Qed.

Lemma py_range_nth (n : Z) (i : nat) (ep : Z) :
  nth_error (py_range n) i = Some ep -> ep = Z.of_nat i.
Proof.
  unfold py_range. rewrite nth_error_map.
  destruct (nth_error (seq 0 (Z.to_nat n)) i) as [k|] eqn:E;
    [|discriminate].
  intros H. injection H as <-.
  assert (Hi : (i < length (seq 0 (Z.to_nat n)))%nat)
    by (apply nth_error_Some; congruence).
  rewrite length_seq in Hi.
  rewrite (nth_error_nth' _ 0%nat) in E by (now rewrite length_seq).
  rewrite seq_nth in E by exact Hi. injection E as <-. reflexivity.
Qed.

Lemma py_range_empty (n : Z) : (n <= 0)%Z -> py_range n = [].
Proof.
  intros H. unfold py_range.
  replace (Z.to_nat n) with 0%nat by lia. reflexivity.
Qed.

Lemma py_range_cons (n : Z) :
  (1 <= n)%Z ->
  py_range n = 0%Z :: map Z.of_nat (seq 1 (Z.to_nat n - 1)).
Proof.
  intros H. unfold py_range.
  replace (Z.to_nat n) with (S (Z.to_nat n - 1)) at 1 by lia.
  reflexivity.
Qed.


(** ** The whole call *)

Lemma after_loop_inv (st : @State Params Optim) (h : History)
  (stf : State) :
  finish st = Ok (h, stf) ->
  h = convergenceHistory (fst st)
  /\ fst stf = fst st
  /\ alpha (snd stf) = alpha (snd st)
  /\ rho_np (snd st) <> None.
Proof.
  destruct st as [topOpt lv]. cbn [fst snd]. unfold after_loop. intros H.
  destruct (rho_np lv) as [rho|]; [|discriminate H]. cbn [read bind] in H.
  destruct (reshape rho _ _); [|discriminate H]. cbn [bind] in H.
  destruct (titleStr lv); [|discriminate H]. cbn [read bind] in H.
  destruct (epoch lv); [|discriminate H]. cbn [read bind] in H.
  destruct (obj0 topOpt); [|discriminate H]. cbn [read bind] in H.
  destruct (currentVolumeFraction lv); [|discriminate H].
  cbn [read bind] in H.
  destruct (loss lv); [|discriminate H]. cbn [read bind] in H.
  destruct (relGreyElements lv); [|discriminate H]. cbn [read bind] in H.
  destruct (reshape _ _ _); [|discriminate H]. cbn [bind] in H.
  injection H as <- <-. cbn. repeat split. discriminate.
Qed.

Lemma run_inv (topOpt : TopologyOptimizer) (maxEpochs minEpochs : Z)
  (h : History) (stf : State) (r : LoopExit) :
  run topOpt maxEpochs minEpochs = Ok (h, stf, r) ->
  loop minEpochs (py_range maxEpochs) (start topOpt) = Ok r
  /\ finish (final r) = Ok (h, stf).
Proof.
  unfold optimizeDesign_run. intros H.
  destruct (loop minEpochs (py_range maxEpochs) (start topOpt)) as [r'|];
    [|discriminate H].
  cbn [bind] in H.
  destruct (finish (final r')) as [[h' stf']|] eqn:Hf; [|discriminate H].
  cbn in H. injection H as <- <- <-. now split.
Qed.

Lemma call_inv (topOpt : TopologyOptimizer) (maxEpochs minEpochs : Z)
  (h : History) :
  call topOpt maxEpochs minEpochs = Ok h ->
  exists stf r, run topOpt maxEpochs minEpochs = Ok (h, stf, r).
Proof.
  unfold optimizeDesign. intros H.
  destruct (run topOpt maxEpochs minEpochs) as [[[h' stf] r]|] eqn:Hr;
    [|discriminate H].
  cbn in H. injection H as <-. now exists stf, r.
Qed.

(** A call that returns has made at least one pass. *)
Lemma run_passes_nonempty (topOpt : TopologyOptimizer)
  (maxEpochs minEpochs : Z) (h : History) (stf : State) (r : LoopExit) :
  run topOpt maxEpochs minEpochs = Ok (h, stf, r) -> passes r <> [].
Proof.
  intros H. destruct (run_inv _ _ _ _ _ _ H) as [Hl Hf].
  destruct (for_epochs_inv _ _ _ _ Hl) as (_ & Hfin & _).
  destruct (after_loop_inv _ _ _ Hf) as (_ & _ & _ & Hrho).
  intros E. rewrite E in Hfin. simpl in Hfin. rewrite Hfin in Hrho.
  now apply Hrho.
Qed.

Section Contract.

(** The network answers one density per coordinate row. *)
Hypothesis forward_length :
  forall theta c, length (forward theta c) = length c.

Lemma current_density_length (t : @TopologyOptimizer Params Optim) :
  length (rho_of t) = length (xy t).
Proof.
  unfold current_density.
  now rewrite projectDensity_length, forward_length, applySymmetry_length.
Qed.

Lemma loop_body_ok (ep : Z) (st : State) :
  well_shaped (fst st) -> (ep = 0%Z \/ all_bound st) ->
  exists st', body ep st = Ok st'
              /\ well_shaped (fst st') /\ all_bound st'.
Proof.
  destruct st as [topOpt lv]. cbn [fst].
  intros (Hopt & Hxy & Hne & Hplot) Hb.
  destruct (loop_body_total ep topOpt lv) as [st' H].
  - exact Hopt.
  - destruct Hb as [Hb|Hb]; [now left|right; apply Hb].
  - now rewrite current_density_length.
  - now rewrite current_density_length.
  - exists st'. split; [exact H|].
    destruct (loop_body_inv _ _ _ _ H)
      as (o0 & Ho & _ & _ & _ & HFE & _ & Hep & Hrho & Hg & Hcvf & Hloss
          & Ht & _ & Hopt' & _ & Hxy' & Hplot' & Hbr & _).
    split.
    + unfold well_shaped. rewrite HFE, Hxy', Hplot', Hbr.
      cbn [nelx nely set_penal]. now repeat split.
    + unfold all_bound. rewrite Ho, Hep, Hrho, Hg, Hcvf, HFE.
      cbn [nelx nely set_penal].
      repeat split; try discriminate; try assumption.
      * destruct (ep mod 20 =? 0)%Z eqn:E20; [apply Ht|].
        rewrite Ht. destruct Hb as [->|Hb]; [discriminate E20|].
        apply Hb.
      * eexists. split; [reflexivity|].
        now rewrite current_density_length.
Qed.

Lemma for_epochs_ok (minEpochs : Z) (epochs : list Z) :
  forall st : State,
    well_shaped (fst st) ->
    (hd_error epochs = Some 0%Z \/ all_bound st) ->
    exists r, loop minEpochs epochs st = Ok r
              /\ well_shaped (fst (final r))
              /\ (epochs <> [] \/ all_bound st -> all_bound (final r)).
Proof.
  induction epochs as [|ep rest IH]; intros st Hw Hb.
  - eexists. split; [reflexivity|]. split; [exact Hw|].
    intros [E|E]; [contradiction|exact E].
  - destruct (loop_body_ok ep st Hw) as (st' & Hbody & Hw' & Hb').
    { destruct Hb as [Hb|Hb]; [left; now injection Hb|now right]. }
    simpl. rewrite Hbody. cbn [bind].
    destruct (break_cond_after_body minEpochs _ _ _ Hbody)
      as (g & _ & ->).
    cbn [bind]. destruct (break_test minEpochs ep g).
    + eexists. split; [reflexivity|]. now split.
    + destruct (IH st' Hw' (or_intror Hb')) as (r & -> & Hwr & Hbr).
      cbn [bind]. eexists. split; [reflexivity|]. cbn [final].
      split; [exact Hwr|]. intros _. apply Hbr. now right.
Qed.

Lemma after_loop_ok (st : @State Params Optim) :
  well_shaped (fst st) -> all_bound st ->
  exists h stf, finish st = Ok (h, stf).
Proof.
  destruct st as [topOpt lv]. cbn [fst].
  intros (_ & _ & _ & Hplot)
    (Ho & Ht & Hep & Hcvf & Hloss & Hg & rho & Hrho & Hlen).
  cbn [fst snd] in *. unfold after_loop.
  rewrite Hrho. cbn [read bind]. unfold reshape.
  apply Nat.eqb_eq in Hlen. rewrite Hlen. cbn [bind].
  destruct (titleStr lv); [|contradiction]. cbn [read bind].
  destruct (epoch lv); [|contradiction]. cbn [read bind].
  destruct (obj0 topOpt); [|contradiction]. cbn [read bind].
  destruct (currentVolumeFraction lv); [|contradiction]. cbn [read bind].
  destruct (loss lv); [|contradiction]. cbn [read bind].
  destruct (relGreyElements lv); [|contradiction]. cbn [read bind].
  rewrite projectDensity_length, forward_length, applySymmetry_length.
  apply Nat.eqb_eq in Hplot. rewrite Hplot. cbn [bind].
  eexists. eexists. reflexivity.
Qed.

(** The call returns whenever it is asked for at least one epoch on a
    well-shaped object. *)
Lemma optimizeDesign_run_total (topOpt : TopologyOptimizer)
  (maxEpochs minEpochs : Z) :
  length (xy topOpt) = (nelx (FE topOpt) * nely (FE topOpt))%nat ->
  length (xy topOpt) <> 0%nat ->
  length (xyPlot topOpt)
  = (nelx (FE topOpt) * boundaryResolution topOpt
     * (nely (FE topOpt) * boundaryResolution topOpt))%nat ->
  (1 <= maxEpochs)%Z ->
  exists h stf r, run topOpt maxEpochs minEpochs = Ok (h, stf, r).
Proof.
  intros Hxy Hne Hplot Hmax.
  destruct (for_epochs_ok minEpochs (py_range maxEpochs) (start topOpt))
    as (r & Hl & Hw & Hb).
  - cbn. repeat split; try assumption. discriminate.
  - left. now rewrite py_range_cons.
  - destruct (after_loop_ok (final r) Hw) as (h & stf & Hf).
    + apply Hb. left. rewrite py_range_cons by assumption. discriminate.
    + exists h, stf, r. unfold optimizeDesign_run.
      rewrite Hl. cbn [bind]. rewrite Hf. reflexivity.
Qed.

End Contract.

(** A call asked for one epoch makes exactly the pass of epoch 0. *)
Lemma run_single_pass (topOpt : TopologyOptimizer) (minEpochs : Z)
  (h : History) (stf : State) (r : LoopExit) :
  run topOpt 1 minEpochs = Ok (h, stf, r) ->
  exists s1, passes r = [s1] /\ body 0 (start topOpt) = Ok s1.
Proof.
  intros H. pose proof (run_passes_nonempty _ _ _ _ _ _ H) as Hne.
  destruct (run_inv _ _ _ _ _ _ H) as [Hl _].
  destruct (for_epochs_inv _ _ _ _ Hl) as (Hlink & _ & Hlen & _).
  rewrite py_range_length in Hlen.
  rewrite py_range_cons in Hlink by lia.
  destruct (passes r) as [|s1 [|s2 ps]]; [contradiction| |simpl in Hlen; lia].
  exists s1. split; [reflexivity|]. apply Hlink.
Qed.

(** ** The objective *)

(** With a positive density the division by [rho**penal] undoes one of
    the two factors [rho**penal] of the rescaled sensitivity. *)
Lemma doubled_exponent_cancels (E p : R) (r j : fval) :
  positive r ->
  fdiv (fmul (fmul (Some E) (fpow r (2 * p))) j) (fpow r p)
  = fmul (fmul (Some E) (fpow r p)) j.
Proof.
  intros (x & -> & Hx). cbn [fpow]. rewrite !rpow_pos by exact Hx.
  pose proof (Rpower_pos x p) as Hp.
  destruct j as [y|]; cbn; [|reflexivity].
  rewrite fdiv_some_aux by lra.
  f_equal. rewrite Rpower_double. field. lra.
Qed.

Lemma objective_sum_doubled (E p : R) (rho J : tensor) (o0 : fval) :
  fdiv (objective_sum p (scaled_Jelem E p rho J) rho) o0
  = doubled_exponent_objective E p rho J o0.
Proof.
  unfold objective_sum, scaled_Jelem, doubled_exponent_objective.
  now rewrite map2_fuse.
Qed.

Lemma objective_sum_plain (E p : R) (rho J : tensor) :
  Forall positive rho ->
  objective_sum p (scaled_Jelem E p rho J) rho = compliance_sum E p rho J.
Proof.
  intros H. unfold objective_sum, scaled_Jelem, compliance_sum.
  rewrite map2_fuse. f_equal.
  apply (map2_ext_Forall positive); [exact H|].
  intros r j Hr. now apply doubled_exponent_cancels.
Qed.

(** C1, as amended: in every pass the objective is
    [sum(Emax * rho**(2*penal) * Jelem / rho**penal) / obj0], with [rho]
    the projected density of that pass (of which [rho_np] is the
    detached copy), [Jelem] the solver's answer on it and [penal] the
    solver's exponent before its update; and when every density of the
    pass is finite and strictly positive this is the value of
    [sum(Emax * rho**penal * Jelem) / obj0]. *)
Theorem objective_by_doubled_exponent (ep : Z) (topOpt : TopologyOptimizer)
  (lv : Locals) (st' : State) :
  body ep (topOpt, lv) = Ok st' ->
  let rho := rho_of topOpt in
  let J := solve (FE topOpt) rho in
  let E := Emax (FE topOpt) in
  let p := penal (FE topOpt) in
  exists o0 : fval,
    obj0 (fst st') = Some o0
    /\ rho_np (snd st') = Some rho
    /\ objective (fst st') = doubled_exponent_objective E p rho J o0
    /\ (Forall positive rho ->
        objective (fst st') = plain_objective E p rho J o0).
Proof.
  intros H rho J E p.
  destruct (loop_body_inv _ _ _ _ H)
    as (o0 & Ho & _ & Hobj & _ & _ & _ & _ & Hrho & _).
  exists o0. fold rho J E p in Hobj.
  repeat split; try assumption.
  - rewrite Hobj. apply objective_sum_doubled.
  - intros Hpos. rewrite Hobj. unfold plain_objective.
    now rewrite objective_sum_plain.
Qed.

(** C6, as amended: the record a pass appends to the history holds the
    objective after its division by [obj0], the mean density and the
    gray-element fraction of that pass; the compliance in physical units
    is that entry multiplied by [obj0], when [obj0] is finite and not
    zero. *)
Theorem history_records_normalised_objective (ep : Z)
  (topOpt : TopologyOptimizer) (lv : Locals) (st' : State) :
  body ep (topOpt, lv) = Ok st' ->
  let rho := rho_of topOpt in
  let J := solve (FE topOpt) rho in
  let c := physical_compliance (Emax (FE topOpt)) (penal (FE topOpt))
             rho J in
  let h := convergenceHistory topOpt in
  exists (o0 : fval) (g : R),
    obj0 (fst st') = Some o0
    /\ relGreyElements (snd st') = Some g
    /\ g = desiredVolumeFraction topOpt * INR (greyElements rho)
           / INR (length rho)
    /\ convergenceHistory (fst st')
       = mkHistory (compliance h ++ [fdiv c o0]) (vol h ++ [fmean rho])
           (grayElems h ++ [g])
    /\ (forall x n : R, c = Some x -> o0 = Some n -> n <> 0 ->
        fmul (fdiv c o0) o0 = Some x).
Proof.
  intros H rho J c h.
  destruct (loop_body_inv _ _ _ _ H)
    as (o0 & Ho & _ & Hobj & Hh & _ & _ & _ & _ & Hg & _).
  exists o0. eexists. split; [exact Ho|]. split; [exact Hg|].
  split; [reflexivity|]. split.
  - rewrite Hh, Hobj. reflexivity.
  - intros x n -> -> Hn. cbn. rewrite fdiv_some_aux by exact Hn.
    cbn. f_equal. field. exact Hn.
Qed.



(** C4, as amended: when the solver's [penal] starts at or below 8.0 and
    [desiredVolumeFraction] is at least 0.0005 (so that the first
    [alpha], 0.05, is at or below [100 * desiredVolumeFraction]), over
    the state in which the loop is entered and the states after each of
    its passes [penal] never decreases and stays at or below 8.0, and
    [alpha] never decreases and stays at or below
    [100 * desiredVolumeFraction]. *)
Theorem continuation_schedule_within_caps (topOpt : TopologyOptimizer)
  (maxEpochs minEpochs : Z) (h : History) (stf : State) (r : LoopExit) :
  run topOpt maxEpochs minEpochs = Ok (h, stf, r) ->
  penal (FE topOpt) <= 8.0 ->
  0.0005 <= desiredVolumeFraction topOpt ->
  schedule_ok (desiredVolumeFraction topOpt) (start topOpt :: passes r).
Proof.
  intros H Hp Hd. destruct (run_inv _ _ _ _ _ _ H) as [Hl _].
  destruct (for_epochs_inv _ _ _ _ Hl) as (Hlink & _).
  apply (linked_schedule _ _ _ Hlink).
  - exact Hp.
  - unfold alpha_of, initial_state, alphaIncrement. cbn. lra.
Qed.

(** C8: the history a call returns has three lists of one length, the
    number of passes the loop made. *)
Theorem history_lengths_count_passes (topOpt : TopologyOptimizer)
  (maxEpochs minEpochs : Z) (h : History) :
  call topOpt maxEpochs minEpochs = Ok h ->
  exists (stf : State) (r : LoopExit),
    run topOpt maxEpochs minEpochs = Ok (h, stf, r)
    /\ length (compliance h) = length (passes r)
    /\ length (vol h) = length (passes r)
    /\ length (grayElems h) = length (passes r).
Proof.
  intros H. destruct (call_inv _ _ _ _ H) as (stf & r & Hr).
  exists stf, r. split; [exact Hr|].
  destruct (run_inv _ _ _ _ _ _ Hr) as [Hl Hf].
  destruct (for_epochs_inv _ _ _ _ Hl) as (Hlink & Hfin & _).
  destruct (after_loop_inv _ _ _ Hf) as (-> & _).
  rewrite Hfin.
  destruct (linked_history_length _ _ _ Hlink) as (A & B & C).
  cbn in A, B, C. now repeat split.
Qed.

(** C10: asked for no epoch, the loop makes no pass, so that [rho_np],
    [titleStr], [epoch], [loss] and [relGreyElements] are still
    unassigned after it, and the call ends with the error of reading
    [rho_np] instead of returning an empty history; a call that returns
    was asked for at least one epoch. *)
Theorem optimizeDesign_needs_an_epoch (topOpt : TopologyOptimizer)
  (maxEpochs minEpochs : Z) :
  ((maxEpochs <= 0)%Z ->
   exists lv : Locals,
     loop minEpochs (py_range maxEpochs) (start topOpt)
     = Ok (mkExit (start topOpt) [] false)
     /\ snd (start topOpt) = lv
     /\ rho_np lv = None /\ titleStr lv = None /\ epoch lv = None
     /\ loss lv = None /\ relGreyElements lv = None
     /\ call topOpt maxEpochs minEpochs
        = Raise (UnboundLocalError "rho_np"))
  /\ (forall h : History,
        call topOpt maxEpochs minEpochs = Ok h -> (1 <= maxEpochs)%Z).
Proof.
  assert (A : (maxEpochs <= 0)%Z ->
              call topOpt maxEpochs minEpochs
              = Raise (UnboundLocalError "rho_np")).
  { intros Hle. unfold optimizeDesign, optimizeDesign_run.
    rewrite py_range_empty by exact Hle. reflexivity. }
  split.
  - intros Hle. eexists. rewrite py_range_empty by exact Hle.
    split; [reflexivity|]. split; [reflexivity|].
    cbn. repeat split. now apply A.
  - intros h Hh.
    destruct (Z_le_gt_dec maxEpochs 0) as [Hle|Hgt]; [|lia].
    rewrite (A Hle) in Hh. discriminate Hh.
Qed.

End DriverFacts.

(** ** The concrete collaborators at work *)

Lemma demo_forward_length (theta : unit) (c : coords) :
  length (Demo.forward theta c) = length c.
Proof. apply length_map. Qed.

(** On a mesh that matches its element centres the call returns. *)
Lemma demo_run_returns (pts : coords) (nx ny : nat) (E p0 dvf : R)
  (maxEpochs minEpochs : Z) :
  length pts = (nx * ny)%nat -> length pts <> 0%nat ->
  (1 <= maxEpochs)%Z ->
  exists h stf r,
    Demo.run (Demo.topOpt pts nx ny E p0 dvf) maxEpochs minEpochs
    = Ok (h, stf, r).
Proof.
  intros Hlen Hne Hmax.
  apply optimizeDesign_run_total; try assumption.
  - exact demo_forward_length.
  - cbn. apply repeat_length.
Qed.

Lemma demo_body_returns (pts : coords) (nx ny : nat) (E p0 dvf : R) :
  length pts = (nx * ny)%nat -> length pts <> 0%nat ->
  exists st',
    Demo.body 0 (Demo.start (Demo.topOpt pts nx ny E p0 dvf))
    = Ok st'.
Proof.
  intros Hlen Hne.
  assert (L : length (current_density Demo.forward
                        (Demo.topOpt pts nx ny E p0 dvf)) = length pts).
  { unfold current_density.
    now rewrite projectDensity_length, demo_forward_length,
      applySymmetry_length. }
  apply loop_body_total.
  - discriminate.
  - now left.
  - change (length (current_density Demo.forward
                      (Demo.topOpt pts nx ny E p0 dvf)) <> 0%nat).
    now rewrite L.
  - change (length (current_density Demo.forward
                      (Demo.topOpt pts nx ny E p0 dvf)) = (nx * ny)%nat).
    now rewrite L.
Qed.

Lemma call_of_run {Params Optim : Type}
  (forward : Params -> coords -> tensor)
  (solve : FEsolver -> tensor -> tensor) (Adam : Params -> R -> Optim)
  (step : Optim -> Params -> (Params -> fval) -> R -> Optim * Params)
  (t : TopologyOptimizer) (maxEpochs minEpochs : Z) (h : History)
  (stf : State) (r : LoopExit) :
  optimizeDesign_run forward solve Adam step t maxEpochs minEpochs
  = Ok (h, stf, r) ->
  optimizeDesign forward solve Adam step t maxEpochs minEpochs = Ok h.
Proof.
  intros H. unfold optimizeDesign. now rewrite H.
Qed.

(** One element of density 1/2 with unit stiffness, sensitivity and
    exponent has the compliance 1/2. *)
Lemma demo_compliance_half :
  compliance_sum 1 1 [Some (1 / 2)] [Some 1] = Some (1 / 2).
Proof.
  unfold compliance_sum. cbn [map2 fsum fold_right fpow].
  rewrite rpow_pos by lra. rewrite Rpower_1 by lra.
  cbn. f_equal. lra.
Qed.

Lemma demo_physical_half :
  physical_compliance 1 1 [Some (1 / 2)] [Some 1] = Some (1 / 2).
Proof.
  unfold physical_compliance. rewrite objective_sum_plain.
  - exact demo_compliance_half.
  - repeat constructor. exists (1 / 2). split; [reflexivity|lra].
Qed.

(** ** The objective on concrete densities *)

(** The first pass on one element of density 1/2. *)
Lemma objective_by_doubled_exponent_witness :
  exists (st' : @State unit unit) (o0 : fval),
    Demo.body 0 (Demo.start (Demo.one_element 1 1 (1 / 2)))
    = Ok st'
    /\ obj0 (fst st') = Some o0
    /\ objective (fst st')
       = plain_objective 1 1 [Some (1 / 2)] [Some 1] o0.
Proof.
  destruct (demo_body_returns [(1 / 2, 0)] 1 1 1 1 (1 / 2) eq_refl)
    as [st' H]; [discriminate|].
  destruct (objective_by_doubled_exponent Demo.forward Demo.solve
              Demo.backward_clip_step 0 _ _ st' H)
    as (o0 & Ho & _ & _ & Hp).
  exists st', o0. split; [exact H|]. split; [exact Ho|].
  apply Hp. repeat constructor.
  exists (1 / 2). split; [reflexivity|lra].
Defined.

(** C1, as the specification words it, fails where a density is exactly
    0: on the two elements of densities 0 and 1/2, with unit stiffness,
    sensitivities and exponent, [obj0] is 1/2 and
    [sum(Emax * rho**penal * Jelem) / obj0] is 1, while the code divides
    0 by 0 in the first element and its objective is not a number. *)
Lemma objective_undefined_at_zero_density :
  exists st' : @State unit unit,
    Demo.body 0 (Demo.start Demo.two_elements) = Ok st'
    /\ rho_np (snd st') = Some [Some 0; Some (1 / 2)]
    /\ obj0 (fst st') = Some (Some (1 / 2))
    /\ objective (fst st') = None
    /\ plain_objective 1 1 [Some 0; Some (1 / 2)] [Some 1; Some 1]
         (Some (1 / 2))
       = Some 1
    /\ objective (fst st')
       <> plain_objective 1 1 [Some 0; Some (1 / 2)] [Some 1; Some 1]
            (Some (1 / 2)).
Proof.
  destruct (demo_body_returns [(0, 0); (1 / 2, 0)] 2 1 1 1 (1 / 2) eq_refl)
    as [st' H]; [discriminate|].
  exists st'. split; [exact H|].
  destruct (loop_body_inv Demo.forward Demo.solve Demo.backward_clip_step
              0 _ _ st' H)
    as (o0 & Ho & Hcase & Hobj & _ & _ & _ & _ & Hrho & _).
  change (o0 = compliance_sum 1 1 [Some 0; Some (1 / 2)] [Some 1; Some 1])
    in Hcase.
  change (objective (fst st')
          = fdiv (objective_sum 1
                    (scaled_Jelem 1 1 [Some 0; Some (1 / 2)]
                       [Some 1; Some 1])
                    [Some 0; Some (1 / 2)]) o0) in Hobj.
  change (rho_np (snd st') = Some [Some 0; Some (1 / 2)]) in Hrho.
  assert (C : compliance_sum 1 1 [Some 0; Some (1 / 2)] [Some 1; Some 1]
              = Some (1 / 2)).
  { unfold compliance_sum. cbn [map2 fsum fold_right fpow].
    rewrite rpow_zero by lra. rewrite rpow_pos by lra.
    rewrite Rpower_1 by lra. cbn. f_equal. lra. }
  assert (N : objective (fst st') = None).
  { rewrite Hobj. unfold objective_sum, scaled_Jelem.
    cbn [map2 map fsum fold_right fpow].
    rewrite !rpow_zero by lra. cbn [fmul lift2].
    rewrite fdiv_zero. reflexivity. }
  assert (V : plain_objective 1 1 [Some 0; Some (1 / 2)] [Some 1; Some 1]
                (Some (1 / 2)) = Some 1).
  { unfold plain_objective. rewrite C. rewrite fdiv_some by lra.
    f_equal. field. }
  split; [exact Hrho|]. split; [|split; [exact N|split; [exact V|]]].
  - rewrite Ho, Hcase. now rewrite C.
  - rewrite N, V. discriminate.
Qed.

(** ** The history on a concrete pass *)

(** The record of the first pass on one element of density 1/2. *)
Lemma history_records_normalised_objective_witness :
  exists (st' : @State unit unit) (o0 : fval) (g : R),
    Demo.body 0 (Demo.start (Demo.one_element 1 1 (1 / 2))) = Ok st'
    /\ obj0 (fst st') = Some o0
    /\ relGreyElements (snd st') = Some g
    /\ compliance (convergenceHistory (fst st'))
       = [fdiv (physical_compliance 1 1 [Some (1 / 2)] [Some 1]) o0].
Proof.
  destruct (demo_body_returns [(1 / 2, 0)] 1 1 1 1 (1 / 2) eq_refl)
    as [st' H]; [discriminate|].
  destruct (history_records_normalised_objective Demo.forward Demo.solve
              Demo.backward_clip_step 0 _ _ st' H)
    as (o0 & g & Ho & Hg & _ & Hh & _).
  exists st', o0, g. split; [exact H|]. split; [exact Ho|].
  split; [exact Hg|]. rewrite Hh. reflexivity.
Defined.

(** C6, as the specification words it, fails: on one element of density
    1/2 with unit stiffness, sensitivity and exponent, the compliance
    in physical units is 1/2, and the first pass stores 1, its quotient
    by [obj0] = 1/2. *)
Lemma history_stores_quotient_not_compliance :
  exists st' : @State unit unit,
    Demo.body 0 (Demo.start (Demo.one_element 1 1 (1 / 2))) = Ok st'
    /\ physical_compliance 1 1 [Some (1 / 2)] [Some 1] = Some (1 / 2)
    /\ obj0 (fst st') = Some (Some (1 / 2))
    /\ compliance (convergenceHistory (fst st')) = [Some 1]
    /\ compliance (convergenceHistory (fst st'))
       <> [physical_compliance 1 1 [Some (1 / 2)] [Some 1]].
Proof.
  destruct (demo_body_returns [(1 / 2, 0)] 1 1 1 1 (1 / 2) eq_refl)
    as [st' H]; [discriminate|].
  exists st'. split; [exact H|].
  destruct (loop_body_inv Demo.forward Demo.solve Demo.backward_clip_step
              0 _ _ st' H)
    as (o0 & Ho & Hcase & Hobj & Hh & _).
  change (o0 = compliance_sum 1 1 [Some (1 / 2)] [Some 1]) in Hcase.
  change (objective (fst st')
          = fdiv (physical_compliance 1 1 [Some (1 / 2)] [Some 1]) o0)
    in Hobj.
  rewrite demo_compliance_half in Hcase. subst o0.
  rewrite demo_physical_half in Hobj.
  rewrite fdiv_some in Hobj by lra.
  assert (E : compliance (convergenceHistory (fst st')) = [Some 1]).
  { rewrite Hh, Hobj. cbn. repeat f_equal. field. }
  split; [exact demo_physical_half|]. split; [exact Ho|].
  split; [exact E|].
  rewrite E, demo_physical_half. intros C. injection C as C. lra.
Qed.

(** ** Whole calls with the concrete collaborators *)





(** Three epochs from [penal] = 3 with half of the volume wanted. *)
Lemma continuation_schedule_within_caps_witness :
  exists (h : History) (stf : @State unit unit) (r : LoopExit),
    Demo.run (Demo.one_element 1 3 (1 / 2)) 3 0 = Ok (h, stf, r)
    /\ schedule_ok (1 / 2)
         (Demo.start (Demo.one_element 1 3 (1 / 2)) :: passes r).
Proof.
  destruct (demo_run_returns [(1 / 2, 0)] 1 1 1 3 (1 / 2) 3 0 eq_refl)
    as (h & stf & r & H); [discriminate|lia|].
  exists h, stf, r. split; [exact H|].
  apply (continuation_schedule_within_caps Demo.forward Demo.solve Demo.Adam
           Demo.backward_clip_step _ _ _ _ _ _ H).
  - change (3 <= 8.0). lra.
  - change (0.0005 <= 1 / 2). lra.
Defined.

(** C4, as the specification words it, fails outside the caps.  From
    [penal] = 10 the first pass brings [penal] down to 8.0; and with
    [desiredVolumeFraction] = 1/10000 the first [alpha], 0.05, is above
    the cap 0.01, to which the first pass brings it down. *)
Lemma schedule_decreases_from_above_the_caps :
  (exists (h : History) (stf : @State unit unit) (r : LoopExit),
      Demo.run (Demo.one_element 1 10 (1 / 2)) 1 0 = Ok (h, stf, r)
      /\ map penal_of (Demo.start (Demo.one_element 1 10 (1 / 2))
                         :: passes r)
         = [10; 8.0]
      /\ ~ schedule_ok (1 / 2)
            (Demo.start (Demo.one_element 1 10 (1 / 2)) :: passes r))
  /\ (exists (h : History) (stf : @State unit unit) (r : LoopExit),
         Demo.run (Demo.one_element 1 3 (1 / 10000)) 1 0 = Ok (h, stf, r)
         /\ map alpha_of (Demo.start (Demo.one_element 1 3 (1 / 10000))
                            :: passes r)
            = [0.05; 100 * (1 / 10000)]
         /\ ~ schedule_ok (1 / 10000)
               (Demo.start (Demo.one_element 1 3 (1 / 10000))
                  :: passes r)).
Proof.
  split.
  - destruct (demo_run_returns [(1 / 2, 0)] 1 1 1 10 (1 / 2) 1 0 eq_refl)
      as (h & stf & r & H); [discriminate|lia|].
    exists h, stf, r. split; [exact H|].
    destruct (run_single_pass _ _ _ _ _ _ _ _ _ H) as (s1 & -> & Hb).
    destruct (loop_body_inv _ _ _ _ _ _ _ Hb)
      as (o0 & _ & _ & _ & _ & HFE & _).
    assert (P : penal_of s1 = 8.0).
    { unfold penal_of. rewrite HFE.
      change (py_min 8.0 (10 + 0.02) = 8.0). unfold py_min.
      destruct (Rltb (10 + 0.02) 8.0) eqn:E; [|reflexivity].
      apply Rltb_true in E. lra. }
    split.
    + cbn [map]. rewrite P. reflexivity.
    + intros (_ & F & _). inversion F as [|? ? F0 _]; subst.
      change (10 <= 8.0) in F0. lra.
  - destruct (demo_run_returns [(1 / 2, 0)] 1 1 1 3 (1 / 10000) 1 0 eq_refl)
      as (h & stf & r & H); [discriminate|lia|].
    exists h, stf, r. split; [exact H|].
    destruct (run_single_pass _ _ _ _ _ _ _ _ _ H) as (s1 & -> & Hb).
    destruct (loop_body_inv _ _ _ _ _ _ _ Hb)
      as (o0 & _ & _ & _ & _ & _ & Hal & _).
    assert (P : alpha_of s1 = 100 * (1 / 10000)).
    { unfold alpha_of. rewrite Hal.
      change (py_min (100 * (1 / 10000)) (0.05 + 0.05)
              = 100 * (1 / 10000)).
      unfold py_min.
      destruct (Rltb (0.05 + 0.05) (100 * (1 / 10000))) eqn:E;
        [|reflexivity].
      apply Rltb_true in E. lra. }
    split.
    + cbn [map]. rewrite P. reflexivity.
    + intros (_ & _ & _ & F). inversion F as [|? ? F0 _]; subst.
      change (0.05 <= 100 * (1 / 10000)) in F0. lra.
Qed.

(** The history of three epochs on one element. *)
Lemma history_lengths_count_passes_witness :
  exists (h : History) (stf : @State unit unit) (r : LoopExit),
    Demo.run (Demo.one_element 1 1 (1 / 2)) 3 0 = Ok (h, stf, r)
    /\ length (compliance h) = length (passes r)
    /\ length (vol h) = length (passes r)
    /\ length (grayElems h) = length (passes r).
Proof.
  destruct (demo_run_returns [(1 / 2, 0)] 1 1 1 1 (1 / 2) 3 0 eq_refl)
    as (h & stf & r & H); [discriminate|lia|].
  exists h.
  exact (history_lengths_count_passes Demo.forward Demo.solve Demo.Adam
           Demo.backward_clip_step _ _ _ h
           (call_of_run _ _ _ _ _ _ _ _ _ _ H)).
Defined.

(** No epoch against one epoch on one element. *)
Lemma optimizeDesign_needs_an_epoch_witness :
  Demo.call (Demo.one_element 1 1 (1 / 2)) 0 0
  = Raise (UnboundLocalError "rho_np")
  /\ exists h : History,
       Demo.call (Demo.one_element 1 1 (1 / 2)) 1 0 = Ok h
       /\ (1 <= 1)%Z.
Proof.
  split.
  - destruct (proj1 (optimizeDesign_needs_an_epoch Demo.forward Demo.solve
                       Demo.Adam Demo.backward_clip_step
                       (Demo.one_element 1 1 (1 / 2)) 0 0))
      as (lv & _ & _ & _ & _ & _ & _ & _ & E); [lia|exact E].
  - destruct (demo_run_returns [(1 / 2, 0)] 1 1 1 1 (1 / 2) 1 0 eq_refl)
      as (h & stf & r & H); [discriminate|lia|].
    exists h.
    pose proof (call_of_run _ _ _ _ _ _ _ _ _ _ H) as Hc.
    split; [exact Hc|].
    exact (proj2 (optimizeDesign_needs_an_epoch Demo.forward Demo.solve
                    Demo.Adam Demo.backward_clip_step
                    (Demo.one_element 1 1 (1 / 2)) 1 0) h Hc).
Defined.

(** * Further properties of the transforms *)

(** ** The hyperbolic tangent *)

Lemma tanh_0 : tanh 0 = 0.
Proof. unfold tanh. rewrite sinh_0. unfold Rdiv. apply Rmult_0_l. Qed.

Lemma tanh_exp (x : R) :
  tanh x = (exp x * exp x - 1) / (exp x * exp x + 1).
Proof.
  unfold tanh, sinh, cosh. rewrite exp_Ropp.
  pose proof (exp_pos x) as H. field. split; nra.
Qed.

Lemma tanh_opp (x : R) : tanh (- x) = - tanh x.
Proof.
  rewrite !tanh_exp. rewrite exp_Ropp.
  pose proof (exp_pos x) as H. field. split; nra.
Qed.

Lemma tanh_lt (x y : R) : x < y -> tanh x < tanh y.
Proof.
  intros H. rewrite !tanh_exp.
  pose proof (exp_pos x) as Hx. pose proof (exp_increasing _ _ H) as Hxy.
  set (a := exp x) in *. set (b := exp y) in *.
  assert (Ha : 0 < a * a + 1) by nra.
  assert (Hb : 0 < b * b + 1) by nra.
  apply (Rmult_lt_reg_r ((a * a + 1) * (b * b + 1))); [nra|].
  replace ((a * a - 1) / (a * a + 1) * ((a * a + 1) * (b * b + 1)))
    with ((a * a - 1) * (b * b + 1)) by (field; lra).
  replace ((b * b - 1) / (b * b + 1) * ((a * a + 1) * (b * b + 1)))
    with ((b * b - 1) * (a * a + 1)) by (field; lra).
  nra.
Qed.

Lemma tanh_le (x y : R) : x <= y -> tanh x <= tanh y.
Proof.
  intros [H | ->]; [left; now apply tanh_lt|right; reflexivity].
Qed.

Lemma tanh_nonzero (x : R) : x <> 0 -> tanh x <> 0.
Proof.
  intros H. destruct (Rtotal_order x 0) as [L | [E | G]].
  - pose proof (tanh_lt _ _ L) as T. rewrite tanh_0 in T. lra.
  - contradiction.
  - pose proof (tanh_lt _ _ G) as T. rewrite tanh_0 in T. lra.
Qed.

Lemma tanh_pos (x : R) : 0 < x -> 0 < tanh x.
Proof. intros H. rewrite <- tanh_0. now apply tanh_lt. Qed.

(** ** The projection *)

Lemma projected_sign (b x : R) : projected (- b) x = projected b x.
Proof.
  destruct (Req_dec b 0) as [-> | Hb].
  - replace (- 0) with 0 by lra. reflexivity.
  - unfold projected.
    replace (0.5 * - b) with (- (0.5 * b)) by lra.
    replace (- b * (x - 0.5)) with (- (b * (x - 0.5))) by lra.
    rewrite !tanh_opp. field. apply tanh_nonzero. lra.
Qed.

Lemma projected_zero (b : R) : b <> 0 -> projected b 0 = 0.
Proof.
  intros Hb. unfold projected.
  replace (b * (0 - 0.5)) with (- (0.5 * b)) by lra.
  rewrite tanh_opp. field. apply tanh_nonzero. lra.
Qed.

Lemma projected_one (b : R) : b <> 0 -> projected b 1 = 1.
Proof.
  intros Hb. unfold projected.
  replace (b * (1 - 0.5)) with (0.5 * b) by lra.
  assert (HT : tanh (0.5 * b) <> 0) by (apply tanh_nonzero; lra).
  apply (Rmult_eq_reg_r (tanh (0.5 * b))); [|exact HT].
  unfold Rdiv. rewrite Rmult_assoc, Rinv_l by exact HT. lra.
Qed.

Lemma projected_half (b : R) : b <> 0 -> projected b 0.5 = 0.5.
Proof.
  intros Hb. unfold projected.
  replace (b * (0.5 - 0.5)) with 0 by lra.
  rewrite tanh_0.
  assert (HT : tanh (0.5 * b) <> 0) by (apply tanh_nonzero; lra).
  apply (Rmult_eq_reg_r (tanh (0.5 * b))); [|exact HT].
  unfold Rdiv. rewrite Rmult_assoc, Rinv_l by exact HT. lra.
Qed.

(** The projection switched on with a sharpness other than 0 applies the
    closed form to every finite entry. *)
Lemma projectDensity_on (dp : DensityProjection.t) (t : tensor) :
  DensityProjection.isOn dp = true ->
  DensityProjection.sharpness dp <> 0 ->
  projectDensity dp t
  = map (lift1 (projected (DensityProjection.sharpness dp))) t.
Proof.
  intros Hon Hb. unfold projectDensity. rewrite Hon. rewrite map_map.
  apply map_ext. intros [x|]; [|reflexivity]. cbn.
  rewrite fdiv_some_aux by (apply tanh_nonzero; lra).
  reflexivity.
Qed.

Lemma projected_bounds (b x : R) :
  0 < b -> 0 <= x <= 1 -> 0 <= projected b x <= 1.
Proof.
  intros Hb Hx. unfold projected.
  assert (HT : 0 < tanh (0.5 * b)) by (apply tanh_pos; lra).
  assert (Hu : tanh (b * (x - 0.5)) <= tanh (0.5 * b))
    by (apply tanh_le; nra).
  assert (Hl : - tanh (0.5 * b) <= tanh (b * (x - 0.5))).
  { rewrite <- tanh_opp. apply tanh_le. nra. }
  split.
  - apply Rmult_le_reg_r with (tanh (0.5 * b)); [exact HT|].
    unfold Rdiv. rewrite Rmult_assoc, Rinv_l by lra. lra.
  - apply Rmult_le_reg_r with (tanh (0.5 * b)); [exact HT|].
    unfold Rdiv. rewrite Rmult_assoc, Rinv_l by lra. lra.
Qed.

Lemma projected_lt (b x y : R) :
  0 < b -> x < y -> projected b x < projected b y.
Proof.
  intros Hb Hxy. unfold projected.
  assert (HT : 0 < tanh (0.5 * b)) by (apply tanh_pos; lra).
  assert (Hu : tanh (b * (x - 0.5)) < tanh (b * (y - 0.5)))
    by (apply tanh_lt; nra).
  apply Rmult_lt_reg_r with (tanh (0.5 * b)); [exact HT|].
  unfold Rdiv. rewrite !Rmult_assoc, Rinv_l by lra. lra.
Qed.

Lemma projected_in_unit (b x : R) :
  b <> 0 -> 0 <= x <= 1 -> 0 <= projected b x <= 1.
Proof.
  intros Hb Hx.
  destruct (Rtotal_order b 0) as [L | [E | G]];
    [|contradiction|now apply projected_bounds].
  rewrite <- projected_sign. apply projected_bounds; lra.
Qed.

(** X1: with a sharpness other than 0, whether the projection is on or
    off, a binary design (entries 0, 0.5, 1 or NaN) goes through
    [projectDensity] unchanged. *)
Theorem projectDensity_keeps_binary (dp : DensityProjection.t) (t : tensor) :
  DensityProjection.sharpness dp <> 0 ->
  Forall binary_entry t ->
  projectDensity dp t = t.
Proof.
  intros Hb Ht.
  destruct (DensityProjection.isOn dp) eqn:Hon.
  - rewrite projectDensity_on by assumption.
    induction Ht as [|v t Hv _ IH]; [reflexivity|].
    cbn [map]. rewrite IH. f_equal.
    destruct Hv as [-> | [-> | [-> | ->]]]; cbn [lift1]; try reflexivity.
    + now rewrite projected_zero.
    + now rewrite projected_half.
    + now rewrite projected_one.
  - unfold projectDensity. now rewrite Hon.
Qed.

(** A void, a midpoint, a solid and a NaN entry under the sharpness 8. *)
Lemma projectDensity_keeps_binary_witness :
  projectDensity (DensityProjection.mk true 8)
    [Some 0; Some 0.5; Some 1; None]
  = [Some 0; Some 0.5; Some 1; None].
Proof.
  apply projectDensity_keeps_binary.
  - cbn. lra.
  - repeat constructor; unfold binary_entry; tauto.
Defined.

(** X2: with the projection on and a sharpness other than 0, every
    density between 0 and 1 is projected to a density between 0 and 1. *)
Theorem projectDensity_stays_in_unit (dp : DensityProjection.t)
  (t : tensor) :
  DensityProjection.isOn dp = true ->
  DensityProjection.sharpness dp <> 0 ->
  Forall in_unit t ->
  Forall in_unit (projectDensity dp t).
Proof.
  intros Hon Hb Ht. rewrite projectDensity_on by assumption.
  induction Ht as [|v t (x & -> & Hx) _ IH]; constructor; [|exact IH].
  exists (projected (DensityProjection.sharpness dp) x).
  split; [reflexivity|]. now apply projected_in_unit.
Qed.

(** Two densities under the sharpness 8. *)
Lemma projectDensity_stays_in_unit_witness :
  Forall in_unit
    (projectDensity (DensityProjection.mk true 8)
       [Some (1 / 4); Some (3 / 4)]).
Proof.
  apply projectDensity_stays_in_unit.
  - reflexivity.
  - cbn. lra.
  - repeat constructor.
    + exists (1 / 4). split; [reflexivity|lra].
    + exists (3 / 4). split; [reflexivity|lra].
Defined.

(** X3: with the projection on and a sharpness other than 0, the
    projection is strictly increasing on finite densities; in particular
    a density below 0.5 stays below 0.5 and one above 0.5 stays above. *)
Theorem projectDensity_increasing (dp : DensityProjection.t) (x y : R) :
  DensityProjection.isOn dp = true ->
  DensityProjection.sharpness dp <> 0 ->
  x < y ->
  exists px py : R,
    projectDensity dp [Some x; Some y] = [Some px; Some py]
    /\ px < py
    /\ (y = 0.5 -> py = 0.5) /\ (x = 0.5 -> px = 0.5).
Proof.
  intros Hon Hb Hxy.
  pose proof (projected_half _ Hb) as H5.
  rewrite projectDensity_on by assumption. cbn [map lift1].
  eexists. eexists. split; [reflexivity|]. split.
  - destruct (Rtotal_order (DensityProjection.sharpness dp) 0)
      as [L | [E | G]]; [|contradiction|now apply projected_lt].
    rewrite <- (projected_sign _ x), <- (projected_sign _ y).
    apply projected_lt; lra.
  - split; intros ->; exact H5.
Qed.

(** The densities 0.3 and 0.5 under the sharpness 8. *)
Lemma projectDensity_increasing_witness :
  exists px py : R,
    projectDensity (DensityProjection.mk true 8) [Some 0.3; Some 0.5]
    = [Some px; Some py]
    /\ px < py /\ py = 0.5.
Proof.
  destruct (projectDensity_increasing (DensityProjection.mk true 8) 0.3 0.5)
    as (px & py & E & L & H & _).
  - reflexivity.
  - cbn. lra.
  - lra.
  - exists px, py. split; [exact E|]. split; [exact L|].
    apply H. reflexivity.
Defined.

(** X4: with the projection on and the sharpness 0, the normalising
    denominator [tanh(0.5 * b)] is 0 and every entry of the projected
    tensor is a NaN. *)
Theorem projectDensity_zero_sharpness (dp : DensityProjection.t)
  (t : tensor) :
  DensityProjection.isOn dp = true ->
  DensityProjection.sharpness dp = 0 ->
  projectDensity dp t = map (fun _ => None) t.
Proof.
  intros Hon Hb. unfold projectDensity. rewrite Hon, Hb, map_map.
  apply map_ext. intros v.
  replace (0.5 * 0) with 0 by lra. rewrite tanh_0.
  destruct v as [x|]; cbn; [|reflexivity].
  destruct (Reqb 0 0) eqn:E; [reflexivity|].
  apply Reqb_false in E. lra.
Qed.

(** Two densities under the sharpness 0. *)
Lemma projectDensity_zero_sharpness_witness :
  projectDensity (DensityProjection.mk true 0) [Some (1 / 4); Some 1]
  = [None; None].
Proof.
  apply (projectDensity_zero_sharpness (DensityProjection.mk true 0)
           [Some (1 / 4); Some 1]); reflexivity.
Defined.

Lemma projected_complement (b x : R) :
  b <> 0 -> projected b (1 - x) = 1 - projected b x.
Proof.
  intros Hb. unfold projected.
  replace (b * (1 - x - 0.5)) with (- (b * (x - 0.5))) by lra.
  rewrite tanh_opp.
  assert (HT : tanh (0.5 * b) <> 0) by (apply tanh_nonzero; lra).
  apply (Rmult_eq_reg_r (tanh (0.5 * b))); [|exact HT].
  unfold Rdiv. rewrite Rmult_minus_distr_r.
  rewrite !Rmult_assoc, Rinv_l by exact HT. lra.
Qed.

(** X5: [projectDensity] commutes with exchanging solid and void: the
    projection of [1 - rho] is 1 minus the projection of [rho], for
    every setting of the projection. *)
Theorem projectDensity_complement (dp : DensityProjection.t) (t : tensor) :
  projectDensity dp (complement t) = complement (projectDensity dp t).
Proof.
  destruct (DensityProjection.isOn dp) eqn:Hon.
  - destruct (Req_dec (DensityProjection.sharpness dp) 0) as [Hb | Hb].
    + unfold projectDensity, complement. rewrite Hon, Hb, !map_map.
      apply map_ext. intros v.
      replace (0.5 * 0) with 0 by lra. rewrite tanh_0.
      destruct v as [x|]; cbn; [|reflexivity].
      destruct (Reqb 0 0) eqn:E; [reflexivity|].
      apply Reqb_false in E. lra.
    + rewrite !projectDensity_on by assumption.
      unfold complement. rewrite !map_map. apply map_ext.
      intros [x|]; [|reflexivity]. cbn [lift1].
      now rewrite projected_complement.
  - unfold projectDensity. now rewrite Hon.
Qed.

(** ** The symmetry *)

Lemma fold_about_idem (m v : R) :
  fold_about m (fold_about m v) = fold_about m v.
Proof.
  unfold fold_about. replace (m + Rabs (v - m) - m) with (Rabs (v - m)) by lra.
  now rewrite Rabs_Rabsolu.
Qed.

Lemma fold_about_ge (m v : R) : m <= fold_about m v.
Proof. unfold fold_about. pose proof (Rabs_pos (v - m)). lra. Qed.

Lemma fold_about_fixes (m v : R) : m <= v -> fold_about m v = v.
Proof. intros H. unfold fold_about. rewrite Rabs_right by lra. lra. Qed.

(** [applySymmetry] row by row. *)
Lemma applySymmetry_rows (sx sy : SymAxis.t) (c : coords) :
  applySymmetry sx sy c
  = map (fun r =>
           ((if SymAxis.isOn sy then fold_about (SymAxis.midPt sy) (fst r)
             else fst r),
            (if SymAxis.isOn sx then fold_about (SymAxis.midPt sx) (snd r)
             else snd r))) c.
Proof.
  unfold applySymmetry, fold_about.
  induction c as [|r c IH]; [now destruct (SymAxis.isOn sy),
                               (SymAxis.isOn sx)|].
  destruct (SymAxis.isOn sy), (SymAxis.isOn sx); cbn [map combine] in *;
    now rewrite IH.
Qed.

(** X6: folding twice is folding once: [applySymmetry] applied to its own
    output changes nothing, whichever symmetries are on. *)
Theorem applySymmetry_idempotent (sx sy : SymAxis.t) (c : coords) :
  applySymmetry sx sy (applySymmetry sx sy c) = applySymmetry sx sy c.
Proof.
  rewrite !applySymmetry_rows, map_map. apply map_ext. intros [x y].
  cbn [fst snd].
  destruct (SymAxis.isOn sy), (SymAxis.isOn sx);
    now rewrite ?fold_about_idem.
Qed.

(** X7: every row [applySymmetry] returns lies at or beyond the midpoint
    of each symmetry that is on: in the first coordinate for [symYAxis],
    in the second for [symXAxis]; and the output has as many rows as the
    input. *)
Theorem applySymmetry_lands_beyond_midpoints (sx sy : SymAxis.t)
  (c : coords) :
  length (applySymmetry sx sy c) = length c
  /\ (SymAxis.isOn sy = true ->
      Forall (fun r => SymAxis.midPt sy <= fst r) (applySymmetry sx sy c))
  /\ (SymAxis.isOn sx = true ->
      Forall (fun r => SymAxis.midPt sx <= snd r) (applySymmetry sx sy c)).
Proof.
  split; [apply applySymmetry_length|].
  rewrite applySymmetry_rows.
  split; intros H; rewrite H; apply Forall_forall; intros r Hr;
    apply in_map_iff in Hr; destruct Hr as ([x y] & <- & _);
    cbn [fst snd]; apply fold_about_ge.
Qed.

(** Both symmetries on, about the midpoints 1 and 2. *)
Lemma applySymmetry_lands_beyond_midpoints_witness :
  Forall (fun r => 2 <= fst r)
    (applySymmetry (SymAxis.mk true 1) (SymAxis.mk true 2)
       [(0, 0); (5, 5)])
  /\ Forall (fun r => 1 <= snd r)
       (applySymmetry (SymAxis.mk true 1) (SymAxis.mk true 2)
          [(0, 0); (5, 5)]).
Proof.
  destruct (applySymmetry_lands_beyond_midpoints (SymAxis.mk true 1)
              (SymAxis.mk true 2) [(0, 0); (5, 5)]) as (_ & A & B).
  split; [apply A|apply B]; reflexivity.
Defined.

(** X8: rows that already lie at or beyond the midpoint of every symmetry
    that is on go through [applySymmetry] unchanged. *)
Theorem applySymmetry_fixes_far_side (sx sy : SymAxis.t) (c : coords) :
  (SymAxis.isOn sy = true ->
   Forall (fun r => SymAxis.midPt sy <= fst r) c) ->
  (SymAxis.isOn sx = true ->
   Forall (fun r => SymAxis.midPt sx <= snd r) c) ->
  applySymmetry sx sy c = c.
Proof.
  intros Hy Hx. rewrite applySymmetry_rows.
  rewrite <- (map_id c) at 2. apply map_ext_in. intros [x y] Hin.
  cbn [fst snd]. f_equal.
  - destruct (SymAxis.isOn sy); [|reflexivity].
    apply fold_about_fixes.
    apply (proj1 (Forall_forall _ _) (Hy eq_refl) _ Hin).
  - destruct (SymAxis.isOn sx); [|reflexivity].
    apply fold_about_fixes.
    apply (proj1 (Forall_forall _ _) (Hx eq_refl) _ Hin).
Qed.

(** The symmetry about the Y axis at 1, on two rows beyond it. *)
Lemma applySymmetry_fixes_far_side_witness :
  applySymmetry Demo.symOff (SymAxis.mk true 1) [(1, 0); (3, -2)]
  = [(1, 0); (3, -2)].
Proof.
  apply applySymmetry_fixes_far_side.
  - intros _. repeat constructor; cbn; lra.
  - intros H. discriminate H.
Defined.

(** * Further properties of the driver *)

Section DriverMore.

Context {Params Optim : Type}.
Variable forward : Params -> coords -> tensor.
Variable solve : FEsolver -> tensor -> tensor.
Variable Adam : Params -> R -> Optim.
Variable backward_clip_step :
  Optim -> Params -> (Params -> fval) -> R -> Optim * Params.

Local Abbreviation body := (loop_body forward solve backward_clip_step).
Local Abbreviation rho_of := (current_density forward).
Local Abbreviation loop := (for_epochs forward solve backward_clip_step).
Local Abbreviation linked_by := (chain forward solve backward_clip_step).
Local Abbreviation start := (initial_state Adam).
Local Abbreviation finish := (after_loop forward).
Local Abbreviation run :=
  (optimizeDesign_run forward solve Adam backward_clip_step).
Local Abbreviation call :=
  (optimizeDesign forward solve Adam backward_clip_step).

(** ** Exceptions of the first pass *)

(** The pass of epoch 0 on a tensor without entries stops at the division
    by [len(rho_np)]; on a tensor that does not fill the mesh it stops
    at the [reshape] of the status plot. *)
Lemma first_pass_raises (topOpt : TopologyOptimizer) (lv : Locals) :
  optimizer topOpt <> None ->
  (length (rho_of topOpt) = 0%nat ->
   body 0 (topOpt, lv) = Raise ZeroDivisionError)
  /\ (length (rho_of topOpt) <> 0%nat ->
      length (rho_of topOpt) <> (nelx (FE topOpt) * nely (FE topOpt))%nat ->
      body 0 (topOpt, lv) = Raise ValueError).
Proof.
  intros Hopt.
  destruct (optimizer topOpt) as [opt|] eqn:Eopt; [|contradiction].
  split.
  - intros Hlen. unfold loop_body. rewrite Eopt. cbn [read bind].
    fold (rho_of topOpt). cbn [Z.eqb obj0 set_obj0 read bind].
    match goal with
    | |- context [backward_clip_step ?a ?b ?c ?d] =>
        destruct (backward_clip_step a b c d) as [opt' theta']
    end.
    unfold py_div_len. rewrite Hlen. reflexivity.
  - intros Hlen Hshape. unfold loop_body. rewrite Eopt. cbn [read bind].
    fold (rho_of topOpt). cbn [Z.eqb obj0 set_obj0 read bind].
    match goal with
    | |- context [backward_clip_step ?a ?b ?c ?d] =>
        destruct (backward_clip_step a b c d) as [opt' theta']
    end.
    unfold py_div_len.
    apply Nat.eqb_neq in Hlen. rewrite Hlen. cbn [bind].
    change (0 mod 20 =? 0)%Z with true. cbv iota.
    unfold reshape. cbn [FE set_FE nelx nely set_penal].
    apply Nat.eqb_neq in Hshape.
    cbn [set_convergenceHistory set_topNet set_optimizer set_objective
         set_obj0 set_density FE nelx nely].
    rewrite Hshape. reflexivity.
Qed.

(** X9: asked for at least one epoch on an object whose network answers
    no density at all (a mesh without elements), the call ends in the
    first pass with [ZeroDivisionError], at the division by
    [len(rho_np)]. *)
Theorem optimizeDesign_without_elements (topOpt : TopologyOptimizer)
  (maxEpochs minEpochs : Z) :
  length (rho_of topOpt) = 0%nat ->
  (1 <= maxEpochs)%Z ->
  call topOpt maxEpochs minEpochs = Raise ZeroDivisionError.
Proof.
  intros Hlen Hmax. unfold optimizeDesign, optimizeDesign_run.
  rewrite py_range_cons by exact Hmax. cbn [for_epochs].
  destruct (first_pass_raises (fst (start topOpt)) (snd (start topOpt)))
    as [HZ _]; [discriminate|].
  specialize (HZ Hlen).
  change (body 0 (start topOpt) = Raise ZeroDivisionError) in HZ.
  now rewrite HZ.
Qed.

(** X10: asked for at least one epoch on an object whose density does not
    fill the mesh (its length is neither 0 nor [nelx * nely]), the call
    ends in the first pass with [ValueError], at the [reshape] for the
    status plot of epoch 0. *)
Theorem optimizeDesign_misfit_density (topOpt : TopologyOptimizer)
  (maxEpochs minEpochs : Z) :
  length (rho_of topOpt) <> 0%nat ->
  length (rho_of topOpt) <> (nelx (FE topOpt) * nely (FE topOpt))%nat ->
  (1 <= maxEpochs)%Z ->
  call topOpt maxEpochs minEpochs = Raise ValueError.
Proof.
  intros Hlen Hshape Hmax. unfold optimizeDesign, optimizeDesign_run.
  rewrite py_range_cons by exact Hmax. cbn [for_epochs].
  destruct (first_pass_raises (fst (start topOpt)) (snd (start topOpt)))
    as [_ HV]; [discriminate|].
  specialize (HV Hlen Hshape).
  change (body 0 (start topOpt) = Raise ValueError) in HV.
  now rewrite HV.
Qed.

(** ** The history against the passes *)

(** The lists of the history grow by the values the passes leave in the
    object and in the frame. *)
Lemma linked_history_records :
  forall (ps : list State) (epochs : list Z) (st : State),
    linked_by epochs st ps ->
    let h0 := convergenceHistory (fst st) in
    let h := convergenceHistory (fst (last ps st)) in
    compliance h = compliance h0 ++ map (fun s => objective (fst s)) ps
    /\ map Some (vol h)
       = map Some (vol h0)
         ++ map (fun s => currentVolumeFraction (snd s)) ps
    /\ map Some (grayElems h)
       = map Some (grayElems h0)
         ++ map (fun s => relGreyElements (snd s)) ps.
Proof.
  induction ps as [|s1 ps IH]; intros epochs st Hl; cbn zeta.
  - cbn [last map]. rewrite !app_nil_r. now repeat split.
  - destruct epochs as [|ep rest]; [contradiction Hl|].
    destruct Hl as [Hb Hl]. destruct st as [topOpt lv].
    destruct (loop_body_inv _ _ _ _ _ _ _ Hb)
      as (o0 & _ & _ & _ & Hh & _ & _ & _ & _ & Hg & Hcvf & _).
    specialize (IH rest s1 Hl). cbn zeta in IH.
    rewrite last_cons. rewrite Hh in IH.
    cbn [compliance vol grayElems fst] in IH |- *.
    destruct IH as (A & B & C). rewrite A, B, C.
    rewrite !map_app, <- !app_assoc. cbn [map app].
    rewrite Hg, Hcvf. now repeat split.
Qed.

Lemma run_history_records (topOpt : TopologyOptimizer)
  (maxEpochs minEpochs : Z) (h : History) (stf : State) (r : LoopExit) :
  run topOpt maxEpochs minEpochs = Ok (h, stf, r) ->
  compliance h = map (fun s => objective (fst s)) (passes r)
  /\ map Some (vol h)
     = map (fun s => currentVolumeFraction (snd s)) (passes r)
  /\ map Some (grayElems h)
     = map (fun s => relGreyElements (snd s)) (passes r).
Proof.
  intros H. destruct (run_inv _ _ _ _ _ _ _ _ _ _ H) as [Hl Hf].
  destruct (for_epochs_inv _ _ _ _ _ _ _ Hl) as (Hlink & Hfin & _).
  destruct (after_loop_inv _ _ _ _ Hf) as (-> & _).
  rewrite Hfin.
  exact (linked_history_records _ _ _ Hlink).
Qed.

(** Every pass of a call that returns: its index is its epoch, it was
    made by the body from the state before it, and that state still has
    the setup of the object the call was given. *)
Lemma run_pass_facts (topOpt : TopologyOptimizer)
  (maxEpochs minEpochs : Z) (h : History) (stf : State) (r : LoopExit) :
  run topOpt maxEpochs minEpochs = Ok (h, stf, r) ->
  forall (i : nat) (s : State),
    nth_error (passes r) i = Some s ->
    exists prev : State,
      nth_error (start topOpt :: passes r) i = Some prev
      /\ same_setup (fst prev) topOpt
      /\ body (Z.of_nat i) prev = Ok s.
Proof.
  intros H i s Hs. destruct (run_inv _ _ _ _ _ _ _ _ _ _ H) as [Hl _].
  destruct (for_epochs_inv _ _ _ _ _ _ _ Hl) as (Hlink & _).
  destruct (linked_nth forward solve backward_clip_step
              (fun s => same_setup (fst s) topOpt)
              (fun ep prev s =>
                 same_setup (fst prev) topOpt /\ body ep prev = Ok s)
              (passes r) (py_range maxEpochs) (start topOpt))
    as [_ Hn].
  { intros ep [t lv] s' _ Hd Hb. cbn [fst] in *.
    destruct (loop_body_inv _ _ _ _ _ _ _ Hb)
      as (o0 & _ & _ & _ & _ & _ & _ & _ & _ & _ & X).
    destruct X
      as (_ & _ & _ & _ & _ & _ & Hxy & _ & _ & Hdvf & Hsx & Hsy & Hdp).
    destruct Hd as (D1 & D2 & D3 & D4 & D5).
    split; [|split; [now repeat split|exact Hb]].
    unfold same_setup. rewrite Hxy, Hdvf, Hsx, Hsy, Hdp.
    now repeat split. }
  { unfold same_setup. cbn. now repeat split. }
  { exact Hlink. }
  destruct (Hn _ _ Hs) as (ep & prev & Hep & Hprev & Hset & Hb).
  apply py_range_nth in Hep. subst ep.
  exists prev. split; [exact Hprev|]. split; [exact Hset|exact Hb].
Qed.

Lemma nth_error_map_Some {A : Type} (l : list A) (i : nat) (a : A) :
  nth_error (map Some l) i = Some (Some a) <-> nth_error l i = Some a.
Proof.
  rewrite nth_error_map. destruct (nth_error l i); cbn; split; congruence.
Qed.

(** The gray fraction recorded at index [i] is the one pass [i] left in
    the frame. *)
Lemma run_gray_record (topOpt : TopologyOptimizer)
  (maxEpochs minEpochs : Z) (h : History) (stf : State) (r : LoopExit)
  (i : nat) (g : R) :
  run topOpt maxEpochs minEpochs = Ok (h, stf, r) ->
  nth_error (grayElems h) i = Some g ->
  exists s, nth_error (passes r) i = Some s
            /\ relGreyElements (snd s) = Some g.
Proof.
  intros H Hg. destruct (run_history_records _ _ _ _ _ _ H) as (_ & _ & E).
  apply nth_error_map_Some in Hg. rewrite E, nth_error_map in Hg.
  change (option_map (fun s : State => relGreyElements (snd s))
            (nth_error (passes r) i) = Some (Some g)) in Hg.
  destruct (nth_error (passes r) i) as [s|]; cbn in Hg;
    [|discriminate Hg].
  exists s. split; [reflexivity|]. congruence.
Qed.

Lemma run_history_length (topOpt : TopologyOptimizer)
  (maxEpochs minEpochs : Z) (h : History) (stf : State) (r : LoopExit) :
  run topOpt maxEpochs minEpochs = Ok (h, stf, r) ->
  length (compliance h) = length (passes r)
  /\ length (grayElems h) = length (passes r).
Proof.
  intros H. destruct (run_history_records _ _ _ _ _ _ H) as (A & _ & C).
  split.
  - now rewrite A, length_map.
  - rewrite <- (length_map Some), C. apply length_map.
Qed.

(** X11: when [desiredVolumeFraction] is not negative, every gray
    fraction in the returned history lies between 0 and
    [desiredVolumeFraction]. *)
Theorem recorded_gray_fraction_bounds (topOpt : TopologyOptimizer)
  (maxEpochs minEpochs : Z) (h : History) :
  call topOpt maxEpochs minEpochs = Ok h ->
  0 <= desiredVolumeFraction topOpt ->
  Forall (fun g => 0 <= g <= desiredVolumeFraction topOpt) (grayElems h).
Proof.
  intros Hc Hd. destruct (call_inv _ _ _ _ _ _ _ _ Hc) as (stf & r & H).
  apply Forall_forall. intros g Hin.
  destruct (In_nth_error _ _ Hin) as [i Hi].
  destruct (run_gray_record _ _ _ _ _ _ _ _ H Hi) as (s & Hs & Hg).
  destruct (run_pass_facts _ _ _ _ _ _ H _ _ Hs)
    as ([t lv] & _ & Hset & Hb).
  destruct (loop_body_inv _ _ _ _ _ _ _ Hb)
    as (o0 & _ & _ & _ & _ & _ & _ & _ & _ & Hg' & _ & _ & _ & Hlen & _).
  destruct Hset as (_ & _ & _ & _ & Hdvf). cbn [fst] in Hdvf.
  rewrite Hg in Hg'. injection Hg' as ->. rewrite Hdvf.
  set (rho := rho_of t) in *.
  assert (L : (greyElements rho <= length rho)%nat)
    by apply filter_length_le.
  apply le_INR in L.
  pose proof (pos_INR (greyElements rho)) as P.
  assert (N : 0 < INR (length rho)).
  { apply lt_0_INR. lia. }
  set (a := INR (greyElements rho)) in *.
  set (b := INR (length rho)) in *.
  split.
  - apply Rmult_le_reg_r with b; [exact N|].
    unfold Rdiv. rewrite Rmult_assoc, Rinv_l by lra. nra.
  - apply Rmult_le_reg_r with b; [exact N|].
    unfold Rdiv. rewrite Rmult_assoc, Rinv_l by lra. nra.
Qed.

(** X12: when every density of the first pass is finite and strictly
    positive and the reference [obj0] it computes is a finite number
    other than 0, the first objective in the returned history is
    exactly 1. *)
Theorem first_recorded_objective_is_one (topOpt : TopologyOptimizer)
  (maxEpochs minEpochs : Z) (h : History) (c : R) :
  call topOpt maxEpochs minEpochs = Ok h ->
  Forall positive (rho_of topOpt) ->
  compliance_sum (Emax (FE topOpt)) (penal (FE topOpt)) (rho_of topOpt)
    (solve (FE topOpt) (rho_of topOpt)) = Some c ->
  c <> 0 ->
  nth_error (compliance h) 0 = Some (Some 1).
Proof.
  intros Hc Hpos Hsum Hne.
  destruct (call_inv _ _ _ _ _ _ _ _ Hc) as (stf & r & H).
  pose proof (run_passes_nonempty _ _ _ _ _ _ _ _ _ _ H) as Hn.
  destruct (run_history_records _ _ _ _ _ _ H) as (-> & _).
  destruct (passes r) as [|s1 ps] eqn:Hps; [contradiction|].
  assert (Hs : nth_error (passes r) 0 = Some s1) by now rewrite Hps.
  destruct (run_pass_facts _ _ _ _ _ _ H _ _ Hs) as (prev & Hp & _ & Hb).
  cbn in Hp. injection Hp as <-. unfold initial_state in Hb.
  destruct (loop_body_inv _ _ _ _ _ _ _ Hb)
    as (o0 & _ & Hcase & Hobj & _).
  cbn in Hcase.
  change (o0 = compliance_sum (Emax (FE topOpt)) (penal (FE topOpt))
                 (rho_of topOpt) (solve (FE topOpt) (rho_of topOpt)))
    in Hcase.
  change (objective (fst s1)
          = fdiv (objective_sum (penal (FE topOpt))
                    (scaled_Jelem (Emax (FE topOpt)) (penal (FE topOpt))
                       (rho_of topOpt) (solve (FE topOpt) (rho_of topOpt)))
                    (rho_of topOpt)) o0) in Hobj.
  rewrite objective_sum_plain in Hobj by exact Hpos.
  rewrite Hcase, Hsum in Hobj. rewrite fdiv_some in Hobj by exact Hne.
  cbn [map nth_error]. rewrite Hobj. do 2 f_equal. now field.
Qed.

(** The exit test after pass [i], read off the returned history. *)
Lemma run_break_record (topOpt : TopologyOptimizer)
  (maxEpochs minEpochs : Z) (h : History) (stf : State) (r : LoopExit)
  (i : nat) (g : R) :
  run topOpt maxEpochs minEpochs = Ok (h, stf, r) ->
  nth_error (grayElems h) i = Some g ->
  ((Z.of_nat i > minEpochs)%Z /\ g < 0.025 <->
   S i = length (passes r) /\ broke r = true).
Proof.
  intros H Hg.
  destruct (run_gray_record _ _ _ _ _ _ _ _ H Hg) as (s & Hs & Hrel).
  destruct (run_pass_facts _ _ _ _ _ _ H _ _ Hs) as ([t lv] & _ & _ & Hb).
  destruct (loop_body_inv _ _ _ _ _ _ _ Hb)
    as (o0 & _ & _ & _ & _ & _ & _ & Hep & _).
  destruct (run_inv _ _ _ _ _ _ _ _ _ _ H) as [Hl _].
  destruct (for_epochs_inv _ _ _ _ _ _ _ Hl) as (_ & _ & _ & _ & _ & Hi).
  destruct (Hi _ _ Hs) as (b & Hbc & Hiff).
  unfold break_cond in Hbc. rewrite Hep, Hrel in Hbc. cbn in Hbc.
  injection Hbc as <-. rewrite <- Hiff. symmetry. apply break_test_spec.
Qed.

Lemma run_pass_count (topOpt : TopologyOptimizer)
  (maxEpochs minEpochs : Z) (h : History) (stf : State) (r : LoopExit) :
  run topOpt maxEpochs minEpochs = Ok (h, stf, r) ->
  (1 <= length (passes r) <= Z.to_nat maxEpochs)%nat
  /\ (broke r = false -> length (passes r) = Z.to_nat maxEpochs).
Proof.
  intros H. pose proof (run_passes_nonempty _ _ _ _ _ _ _ _ _ _ H) as Hn.
  destruct (run_inv _ _ _ _ _ _ _ _ _ _ H) as [Hl _].
  destruct (for_epochs_inv _ _ _ _ _ _ _ Hl) as (_ & _ & Hle & Hall & _).
  rewrite py_range_length in Hle, Hall.
  split; [|exact Hall]. split; [|exact Hle].
  destruct (passes r); [contradiction|cbn; lia].
Qed.

(** X13: in the returned history every gray fraction but the last, at an
    index above [minEpochs], is at least 0.025; and when the history has
    fewer than [maxEpochs] records its last gray fraction is below 0.025
    and sits at an index above [minEpochs]. *)
Theorem history_shows_the_stop (topOpt : TopologyOptimizer)
  (maxEpochs minEpochs : Z) (h : History) :
  call topOpt maxEpochs minEpochs = Ok h ->
  (forall (i : nat) (g : R),
      nth_error (grayElems h) i = Some g ->
      (S i < length (grayElems h))%nat ->
      (Z.of_nat i > minEpochs)%Z ->
      0.025 <= g)
  /\ ((length (grayElems h) < Z.to_nat maxEpochs)%nat ->
      exists g : R,
        nth_error (grayElems h) (length (grayElems h) - 1) = Some g
        /\ g < 0.025
        /\ (Z.of_nat (length (grayElems h) - 1) > minEpochs)%Z).
Proof.
  intros Hc. destruct (call_inv _ _ _ _ _ _ _ _ Hc) as (stf & r & H).
  destruct (run_history_length _ _ _ _ _ _ H) as (_ & Hlen).
  destruct (run_pass_count _ _ _ _ _ _ H) as ((Hone & _) & Hall).
  split.
  - intros i g Hg Hi Hmin.
    pose proof (run_break_record _ _ _ _ _ _ _ _ H Hg) as Hiff.
    destruct (Rle_or_lt 0.025 g) as [Hge | Hlt]; [exact Hge|].
    destruct (proj1 Hiff (conj Hmin Hlt)) as [Hlast _]. lia.
  - intros Hshort. rewrite Hlen in *.
    destruct (broke r) eqn:Hbr; [|specialize (Hall eq_refl); lia].
    destruct (nth_error (grayElems h) (length (passes r) - 1))
      as [g|] eqn:Hg.
    + exists g. split; [reflexivity|].
      pose proof (run_break_record _ _ _ _ _ _ _ _ H Hg) as Hiff.
      destruct (proj2 Hiff) as [A B]; [split; [lia|exact Hbr]|].
      now split.
    + apply nth_error_None in Hg. lia.
Qed.

(** X14: the returned history has at least one record and at least
    [min(maxEpochs, minEpochs + 2)] of them, and at most [maxEpochs]:
    the exit test is first met at the epoch [minEpochs + 1]. *)
Theorem history_record_count (topOpt : TopologyOptimizer)
  (maxEpochs minEpochs : Z) (h : History) :
  call topOpt maxEpochs minEpochs = Ok h ->
  (1 <= Z.of_nat (length (compliance h)) <= maxEpochs)%Z
  /\ (Z.min maxEpochs (minEpochs + 2)
      <= Z.of_nat (length (compliance h)))%Z.
Proof.
  intros Hc. destruct (call_inv _ _ _ _ _ _ _ _ Hc) as (stf & r & H).
  destruct (run_history_length _ _ _ _ _ _ H) as (Hlc & Hlg).
  destruct (run_pass_count _ _ _ _ _ _ H) as ((Hone & Hle) & Hall).
  rewrite Hlc. split; [lia|].
  destruct (broke r) eqn:Hbr; [|specialize (Hall eq_refl); lia].
  destruct (nth_error (grayElems h) (length (passes r) - 1))
    as [g|] eqn:Hg.
  - pose proof (run_break_record _ _ _ _ _ _ _ _ H Hg) as Hiff.
    destruct (proj2 Hiff) as [A B]; [split; [lia|exact Hbr]|]. lia.
  - apply nth_error_None in Hg. lia.
Qed.

(** ** The schedule in closed form *)

Lemma Rmin_step (m a d e : R) :
  0 <= d -> 0 <= e -> Rmin m (Rmin m (a + d) + e) = Rmin m (a + (d + e)).
Proof.
  intros Hd He. unfold Rmin.
  repeat destruct (Rle_dec _ _); lra.
Qed.

(** After [i + 1] passes from a state, [penal] and [alpha] are the capped
    sums of their increments. *)
Lemma linked_schedule_closed :
  forall (ps : list State) (epochs : list Z) (st : State),
    linked_by epochs st ps ->
    forall (i : nat) (s : State),
      nth_error ps i = Some s ->
      penal_of s = Rmin 8.0 (penal_of st + 0.02 * INR (S i))
      /\ alpha_of s
         = Rmin (100 * desiredVolumeFraction (fst st))
             (alpha_of st + 0.05 * INR (S i))
      /\ desiredVolumeFraction (fst s) = desiredVolumeFraction (fst st).
Proof.
  induction ps as [|s1 ps IH]; intros epochs st Hl i s Hs.
  - destruct i; discriminate Hs.
  - destruct epochs as [|ep rest]; [contradiction Hl|].
    destruct Hl as [Hb Hl]. destruct st as [topOpt lv].
    destruct (loop_body_inv _ _ _ _ _ _ _ Hb)
      as (o0 & _ & _ & _ & _ & HFE & Hal & X).
    destruct X as (_ & _ & _ & _ & _ & _ & _ & _ & _ & _ & _ & _ & Hd & _).
    assert (P1 : penal_of s1 = Rmin 8.0 (penal_of (topOpt, lv) + 0.02)).
    { unfold penal_of. cbn [fst]. rewrite HFE. cbn [penal set_penal].
      apply py_min_Rmin. }
    assert (A1 : alpha_of s1
                 = Rmin (100 * desiredVolumeFraction topOpt)
                     (alpha_of (topOpt, lv) + 0.05)).
    { unfold alpha_of. cbn [snd]. rewrite Hal. apply py_min_Rmin. }
    destruct i as [|i].
    + injection Hs as <-. cbn [fst INR].
      rewrite P1, A1, Hd. repeat split; f_equal; lra.
    + cbn [nth_error] in Hs.
      destruct (IH rest s1 Hl i s Hs) as (P & A & D).
      rewrite P, A, D, P1, A1, Hd. cbn [fst].
      pose proof (pos_INR (S i)) as Hpos.
      rewrite (S_INR (S i)).
      rewrite !Rmin_step by lra.
      repeat split; f_equal; lra.
Qed.

(** X15: after [n] passes, [n >= 1], the solver's exponent is
    [min(8.0, penal0 + 0.02 * n)] and the penalty weight is
    [min(100 * desiredVolumeFraction, 0.05 * (n + 1))], whatever the
    initial exponent [penal0]; the call returns with these values for
    the number of passes it made, and the exponent stays on the solver
    object. *)
Theorem continuation_schedule_closed_form (topOpt : TopologyOptimizer)
  (maxEpochs minEpochs : Z) (h : History) (stf : State) (r : LoopExit) :
  run topOpt maxEpochs minEpochs = Ok (h, stf, r) ->
  (forall (i : nat) (s : State),
      nth_error (passes r) i = Some s ->
      penal (FE (fst s))
      = Rmin 8.0 (penal (FE topOpt) + 0.02 * INR (S i))
      /\ alpha (snd s)
         = Rmin (100 * desiredVolumeFraction topOpt)
             (0.05 * INR (S (S i))))
  /\ penal (FE (fst stf))
     = Rmin 8.0 (penal (FE topOpt) + 0.02 * INR (length (passes r)))
  /\ alpha (snd stf)
     = Rmin (100 * desiredVolumeFraction topOpt)
         (0.05 * INR (S (length (passes r)))).
Proof.
  intros H. destruct (run_inv _ _ _ _ _ _ _ _ _ _ H) as [Hl Hf].
  destruct (for_epochs_inv _ _ _ _ _ _ _ Hl) as (Hlink & Hfin & _).
  destruct (after_loop_inv _ _ _ _ Hf) as (_ & Hstf & Hal & _).
  pose proof (run_passes_nonempty _ _ _ _ _ _ _ _ _ _ H) as Hne.
  assert (G : forall (i : nat) (s : State),
             nth_error (passes r) i = Some s ->
             penal (FE (fst s))
             = Rmin 8.0 (penal (FE topOpt) + 0.02 * INR (S i))
             /\ alpha (snd s)
                = Rmin (100 * desiredVolumeFraction topOpt)
                    (0.05 * INR (S (S i)))).
  { intros i s Hs.
    destruct (linked_schedule_closed _ _ _ Hlink i s Hs) as (P & A & _).
    unfold penal_of, alpha_of in P, A.
    change (penal (FE (fst (start topOpt)))) with (penal (FE topOpt)) in P.
    change (desiredVolumeFraction (fst (start topOpt)))
      with (desiredVolumeFraction topOpt) in A.
    change (alpha (snd (start topOpt))) with alphaIncrement in A.
    unfold alphaIncrement in A.
    split; [exact P|]. rewrite A. f_equal.
    rewrite (S_INR (S i)). lra. }
  split; [exact G|].
  rewrite Hstf, Hal, Hfin.
  destruct (exists_last Hne) as (ps & s & Hps).
  rewrite Hps, last_last, length_app. cbn [length].
  replace (length ps + 1)%nat with (S (length ps)) by lia.
  apply G. rewrite Hps, nth_error_app2 by lia.
  now rewrite Nat.sub_diag.
Qed.

(** ** The title of the status plot *)

(** A pass of an epoch divisible by 20 writes a title with its epoch;
    any other pass leaves the title alone. *)
Lemma loop_body_title (ep : Z) (topOpt : TopologyOptimizer) (lv : Locals)
  (st' : State) :
  body ep (topOpt, lv) = Ok st' ->
  if (ep mod 20 =? 0)%Z
  then exists t, titleStr (snd st') = Some t /\ title_iter t = ep
  else titleStr (snd st') = titleStr lv.
Proof.
  intros H. unfold loop_body in H.
  destruct (optimizer topOpt) as [opt|]; [|discriminate H].
  cbn [read bind] in H.
  match type of H with
  | context [read (AttributeError "obj0") ?o] =>
      destruct (read (AttributeError "obj0") o) as [o0|]; [|discriminate H]
  end.
  cbn [bind] in H.
  match type of H with
  | context [backward_clip_step ?a ?b ?c ?d] =>
      destruct (backward_clip_step a b c d) as [opt' theta']
  end.
  match type of H with
  | context [py_div_len ?a ?n] =>
      destruct (py_div_len a n) as [g|]; [|discriminate H]
  end.
  cbn [bind] in H.
  destruct (ep mod 20 =? 0)%Z.
  - match type of H with
    | context [reshape ?a ?b ?c] =>
        destruct (reshape a b c); [|discriminate H]
    end.
    cbn [bind] in H. injection H as <-. cbn [snd titleStr].
    eexists. split; reflexivity.
  - cbn [bind] in H. injection H as <-. reflexivity.
Qed.

Lemma title_block (k : nat) :
  ((Z.of_nat (S k) mod 20 =? 0)%Z = true ->
   Z.of_nat (S k) = (20 * (Z.of_nat (S k) / 20))%Z)
  /\ ((Z.of_nat (S k) mod 20 =? 0)%Z = false ->
      (20 * (Z.of_nat k / 20) = 20 * (Z.of_nat (S k) / 20))%Z).
Proof.
  rewrite Nat2Z.inj_succ. pose proof (Nat2Z.is_nonneg k) as Hk.
  set (z := Z.of_nat k) in *. clearbody z.
  split; intros H.
  - apply Z.eqb_eq in H. Z.to_euclidean_division_equations. lia.
  - apply Z.eqb_neq in H. Z.to_euclidean_division_equations. lia.
Qed.

(** Along the passes of consecutive epochs from [a] on, the title in the
    frame is the one written at the last epoch divisible by 20. *)
Lemma linked_titles :
  forall (ps : list State) (a n : nat) (st : State),
    linked_by (map Z.of_nat (seq a n)) st ps ->
    (a = 0%nat
     \/ exists k t, a = S k /\ titleStr (snd st) = Some t
                    /\ title_iter t = (20 * (Z.of_nat k / 20))%Z) ->
    forall (i : nat) (s : State),
      nth_error ps i = Some s ->
      exists t, titleStr (snd s) = Some t
                /\ title_iter t = (20 * (Z.of_nat (a + i) / 20))%Z.
Proof.
  induction ps as [|s1 ps IH]; intros a n st Hl Ha i s Hs.
  - destruct i; discriminate Hs.
  - destruct n as [|n]; [contradiction Hl|].
    cbn [seq map] in Hl. destruct Hl as [Hb Hl].
    destruct st as [topOpt lv].
    pose proof (loop_body_title _ _ _ _ Hb) as Ht.
    assert (H1 : exists t, titleStr (snd s1) = Some t
                           /\ title_iter t = (20 * (Z.of_nat a / 20))%Z).
    { destruct Ha as [-> | (k & t & -> & Ht0 & Hi0)].
      - cbn in Ht. destruct Ht as (t & Ht1 & Ht2).
        exists t. split; [exact Ht1|]. rewrite Ht2. reflexivity.
      - destruct (title_block k) as [B1 B2].
        destruct (Z.of_nat (S k) mod 20 =? 0)%Z.
        + destruct Ht as (t' & Ht1 & Ht2).
          exists t'. split; [exact Ht1|]. rewrite Ht2. now apply B1.
        + exists t. cbn [snd] in Ht0. rewrite Ht, Ht0.
          split; [reflexivity|]. rewrite Hi0. now apply B2. }
    destruct i as [|i].
    + injection Hs as <-. now rewrite Nat.add_0_r.
    + cbn [nth_error] in Hs.
      destruct H1 as (t & Ht1 & Ht2).
      destruct (IH (S a) n s1 Hl) with (i := i) (s := s)
        as (t' & Ht1' & Ht2').
      * right. exists a, t. now repeat split.
      * exact Hs.
      * exists t'. split; [exact Ht1'|].
        rewrite Ht2'. do 3 f_equal. lia.
Qed.

Lemma after_loop_title (st : @State Params Optim) (h : History)
  (stf : State) :
  finish st = Ok (h, stf) ->
  exists (t : Title) (ep : Z),
    titleStr (snd stf) = Some t /\ epoch (snd st) = Some ep
    /\ title_iter t = ep.
Proof.
  destruct st as [topOpt lv]. cbn [fst snd]. unfold after_loop. intros H.
  destruct (rho_np lv) as [rho|]; [|discriminate H]. cbn [read bind] in H.
  destruct (reshape rho _ _); [|discriminate H]. cbn [bind] in H.
  destruct (titleStr lv); [|discriminate H]. cbn [read bind] in H.
  destruct (epoch lv) as [ep|]; [|discriminate H]. cbn [read bind] in H.
  destruct (obj0 topOpt); [|discriminate H]. cbn [read bind] in H.
  destruct (currentVolumeFraction lv); [|discriminate H].
  cbn [read bind] in H.
  destruct (loss lv); [|discriminate H]. cbn [read bind] in H.
  destruct (relGreyElements lv); [|discriminate H]. cbn [read bind] in H.
  destruct (reshape _ _ _); [|discriminate H]. cbn [bind] in H.
  injection H as <- <-. cbn. eexists. exists ep. now repeat split.
Qed.

(** X16: after the pass of epoch [i] the title kept for the status plot
    is the one written at the last epoch divisible by 20, its iteration
    number being [20 * (i / 20)]; this is the title of the first plot
    after the loop.  The title built after the loop, for the plot on the
    finer grid, carries the epoch of the last pass. *)
Theorem status_title_is_of_last_multiple_of_20
  (topOpt : TopologyOptimizer) (maxEpochs minEpochs : Z) (h : History)
  (stf : State) (r : LoopExit) :
  run topOpt maxEpochs minEpochs = Ok (h, stf, r) ->
  (forall (i : nat) (s : State),
      nth_error (passes r) i = Some s ->
      exists t : Title,
        titleStr (snd s) = Some t
        /\ title_iter t = (20 * (Z.of_nat i / 20))%Z)
  /\ (exists t : Title,
        titleStr (snd (final r)) = Some t
        /\ title_iter t
           = (20 * (Z.of_nat (length (passes r) - 1) / 20))%Z)
  /\ (exists t : Title,
        titleStr (snd stf) = Some t
        /\ title_iter t = Z.of_nat (length (passes r) - 1)).
Proof.
  intros H. destruct (run_inv _ _ _ _ _ _ _ _ _ _ H) as [Hl Hf].
  destruct (for_epochs_inv _ _ _ _ _ _ _ Hl) as (Hlink & Hfin & _).
  pose proof (run_passes_nonempty _ _ _ _ _ _ _ _ _ _ H) as Hne.
  assert (G : forall (i : nat) (s : State),
             nth_error (passes r) i = Some s ->
             exists t : Title,
               titleStr (snd s) = Some t
               /\ title_iter t = (20 * (Z.of_nat i / 20))%Z).
  { intros i s Hs. unfold py_range in Hlink.
    exact (linked_titles _ _ _ _ Hlink (or_introl eq_refl) i s Hs). }
  destruct (exists_last Hne) as (ps & sl & Hps).
  assert (Hlast : nth_error (passes r) (length (passes r) - 1) = Some sl).
  { rewrite Hps, length_app. cbn [length].
    rewrite nth_error_app2 by lia.
    replace (length ps + 1 - 1 - length ps)%nat with 0%nat by lia.
    reflexivity. }
  assert (Hfl : final r = sl) by (now rewrite Hfin, Hps, last_last).
  split; [exact G|]. split.
  - rewrite Hfl. now apply G.
  - destruct (after_loop_title _ _ _ Hf) as (t & ep & Ht & Hep & Hi).
    exists t. split; [exact Ht|]. rewrite Hi.
    rewrite Hfl in Hep.
    destruct (run_pass_facts _ _ _ _ _ _ H _ _ Hlast)
      as ([t0 lv0] & _ & _ & Hb).
    destruct (loop_body_inv _ _ _ _ _ _ _ Hb)
      as (o0 & _ & _ & _ & _ & _ & _ & Hep' & _).
    congruence.
Qed.

Section Returns.

(** The network answers one density per coordinate row. *)
Hypothesis forward_length :
  forall theta c, length (forward theta c) = length c.

(** X17: when the network answers one density per coordinate row, the
    element centres fill the mesh ([nelx * nely] of them, at least one)
    and the plotting grid refines it [boundaryResolution] times in each
    direction, a call asked for at least one epoch returns a history,
    with between 1 and [maxEpochs] records, whatever [obj0], optimiser
    and history the object carried before. *)
Theorem optimizeDesign_returns (topOpt : TopologyOptimizer)
  (maxEpochs minEpochs : Z) :
  length (xy topOpt) = (nelx (FE topOpt) * nely (FE topOpt))%nat ->
  length (xy topOpt) <> 0%nat ->
  length (xyPlot topOpt)
  = (nelx (FE topOpt) * boundaryResolution topOpt
     * (nely (FE topOpt) * boundaryResolution topOpt))%nat ->
  (1 <= maxEpochs)%Z ->
  exists h : History,
    call topOpt maxEpochs minEpochs = Ok h
    /\ (1 <= length (compliance h) <= Z.to_nat maxEpochs)%nat.
Proof.
  intros Hxy Hne Hplot Hmax.
  destruct (optimizeDesign_run_total forward solve Adam backward_clip_step
              forward_length topOpt maxEpochs minEpochs Hxy Hne Hplot Hmax)
    as (h & stf & r & H).
  exists h. split.
  - unfold optimizeDesign. now rewrite H.
  - destruct (run_history_length _ _ _ _ _ _ H) as (-> & _).
    apply (run_pass_count _ _ _ _ _ _ H).
Qed.

End Returns.

End DriverMore.

Section DriverUnit.

Context {Params Optim : Type}.
Variable forward : Params -> coords -> tensor.
Variable solve : FEsolver -> tensor -> tensor.
Variable Adam : Params -> R -> Optim.
Variable backward_clip_step :
  Optim -> Params -> (Params -> fval) -> R -> Optim * Params.

(** The network answers densities between 0 and 1. *)
Hypothesis forward_unit :
  forall theta c, Forall in_unit (forward theta c).

Lemma fsum_in_unit (t : tensor) :
  Forall in_unit t ->
  exists x, fsum t = Some x /\ 0 <= x <= INR (length t).
Proof.
  induction 1 as [|v t (r & -> & Hr) _ (x & Hx & Hb)].
  - exists 0. cbn. split; [reflexivity|lra].
  - exists (r + x). cbn [fsum fold_right]. fold (fsum t). rewrite Hx.
    split; [reflexivity|]. rewrite length_cons, S_INR. lra.
Qed.

Lemma fmean_in_unit (t : tensor) :
  Forall in_unit t -> length t <> 0%nat -> in_unit (fmean t).
Proof.
  intros Ht Hne. destruct (fsum_in_unit t Ht) as (x & Hx & Hb).
  assert (N : 0 < INR (length t)) by (apply lt_0_INR; lia).
  unfold fmean. rewrite Hx, fdiv_some by lra.
  eexists. split; [reflexivity|].
  set (n := INR (length t)) in *.
  split.
  - apply Rmult_le_reg_r with n; [exact N|].
    unfold Rdiv. rewrite Rmult_assoc, Rinv_l by lra. lra.
  - apply Rmult_le_reg_r with n; [exact N|].
    unfold Rdiv. rewrite Rmult_assoc, Rinv_l by lra. lra.
Qed.

Lemma current_density_in_unit (t : @TopologyOptimizer Params Optim) :
  DensityProjection.isOn (densityProjection t) = false
  \/ DensityProjection.sharpness (densityProjection t) <> 0 ->
  Forall in_unit (current_density forward t).
Proof.
  intros Hdp. unfold current_density.
  set (x := forward _ _). assert (Hx : Forall in_unit x) by apply forward_unit.
  clearbody x.
  destruct (DensityProjection.isOn (densityProjection t)) eqn:Hon.
  - destruct Hdp as [Hoff | Hb]; [discriminate Hoff|].
    rewrite projectDensity_on by assumption.
    induction Hx as [|v x (r & -> & Hr) _ IH]; constructor; [|exact IH].
    eexists. split; [reflexivity|]. now apply projected_in_unit.
  - unfold projectDensity. now rewrite Hon.
Qed.

(** X18: when the network answers densities between 0 and 1 and the
    projection is off or has a sharpness other than 0, every volume
    fraction in the returned history is a number between 0 and 1. *)
Theorem recorded_volume_fraction_in_unit (topOpt : TopologyOptimizer)
  (maxEpochs minEpochs : Z) (h : History) :
  DensityProjection.isOn (densityProjection topOpt) = false
  \/ DensityProjection.sharpness (densityProjection topOpt) <> 0 ->
  optimizeDesign forward solve Adam backward_clip_step topOpt
    maxEpochs minEpochs = Ok h ->
  Forall in_unit (vol h).
Proof.
  intros Hdp Hc.
  destruct (call_inv _ _ _ _ _ _ _ _ Hc) as (stf & r & H).
  destruct (run_history_records _ _ _ _ _ _ _ _ _ _ H) as (_ & E & _).
  apply Forall_forall. intros v Hin.
  assert (Hin' : In (Some v) (map Some (vol h))) by now apply in_map.
  rewrite E in Hin'. apply in_map_iff in Hin'.
  destruct Hin' as (s & Hs & Hsin).
  destruct (In_nth_error _ _ Hsin) as [i Hi].
  destruct (run_pass_facts _ _ _ _ _ _ _ _ _ _ H _ _ Hi)
    as ([t lv] & _ & Hset & Hb).
  destruct (loop_body_inv _ _ _ _ _ _ _ Hb)
    as (o0 & _ & _ & _ & _ & _ & _ & _ & _ & _ & Hcvf & _ & _ & Hlen & _).
  rewrite Hcvf in Hs. injection Hs as <-.
  apply fmean_in_unit; [|exact Hlen].
  apply current_density_in_unit.
  destruct Hset as (_ & _ & _ & Hd & _). cbn [fst] in Hd.
  rewrite Hd. exact Hdp.
Qed.

End DriverUnit.

(** ** The further properties on the concrete collaborators *)

Lemma demo_call_returns (pts : coords) (nx ny : nat) (E p0 dvf : R)
  (maxEpochs minEpochs : Z) :
  length pts = (nx * ny)%nat -> length pts <> 0%nat ->
  (1 <= maxEpochs)%Z ->
  exists h,
    Demo.call (Demo.topOpt pts nx ny E p0 dvf) maxEpochs minEpochs = Ok h.
Proof.
  intros Hlen Hne Hmax.
  destruct (demo_run_returns pts nx ny E p0 dvf maxEpochs minEpochs
              Hlen Hne Hmax) as (h & stf & r & H).
  exists h. exact (call_of_run _ _ _ _ _ _ _ _ _ _ H).
Qed.

(** Three epochs asked on the mesh without elements. *)
Lemma optimizeDesign_without_elements_witness :
  Demo.call Demo.empty_mesh 3 0 = Raise ZeroDivisionError.
Proof.
  apply optimizeDesign_without_elements; [reflexivity|lia].
Defined.

(** Three epochs asked with one density for a mesh of two cells. *)
Lemma optimizeDesign_misfit_density_witness :
  Demo.call Demo.misfit 3 0 = Raise ValueError.
Proof.
  apply optimizeDesign_misfit_density; [discriminate|discriminate|lia].
Defined.

(** Three epochs on one gray element, half of the volume wanted. *)
Lemma recorded_gray_fraction_bounds_witness :
  exists h : History,
    Demo.call (Demo.one_element 1 1 (1 / 2)) 3 0 = Ok h
    /\ Forall (fun g => 0 <= g <= 1 / 2) (grayElems h).
Proof.
  destruct (demo_call_returns [(1 / 2, 0)] 1 1 1 1 (1 / 2) 3 0 eq_refl)
    as (h & H); [discriminate|lia|].
  exists h. split; [exact H|].
  apply (recorded_gray_fraction_bounds Demo.forward Demo.solve Demo.Adam
           Demo.backward_clip_step _ _ _ _ H).
  change (0 <= 1 / 2). lra.
Defined.

(** Three epochs on one element of density 1/2, whose reference
    compliance is 1/2. *)
Lemma first_recorded_objective_is_one_witness :
  exists h : History,
    Demo.call (Demo.one_element 1 1 (1 / 2)) 3 0 = Ok h
    /\ nth_error (compliance h) 0 = Some (Some 1).
Proof.
  destruct (demo_call_returns [(1 / 2, 0)] 1 1 1 1 (1 / 2) 3 0 eq_refl)
    as (h & H); [discriminate|lia|].
  exists h. split; [exact H|].
  apply (first_recorded_objective_is_one Demo.forward Demo.solve Demo.Adam
           Demo.backward_clip_step _ _ _ _ (1 / 2) H).
  - repeat constructor. exists (1 / 2). split; [reflexivity|lra].
  - exact demo_compliance_half.
  - lra.
Defined.

(** Five epochs allowed on the solid element, [minEpochs] = 0. *)
Lemma history_shows_the_stop_witness :
  exists h : History,
    Demo.call Demo.solid_element 5 0 = Ok h
    /\ (forall (i : nat) (g : R),
           nth_error (grayElems h) i = Some g ->
           (S i < length (grayElems h))%nat ->
           (Z.of_nat i > 0)%Z -> 0.025 <= g).
Proof.
  destruct (demo_call_returns [(1, 0)] 1 1 1 1 (1 / 2) 5 0 eq_refl)
    as (h & H); [discriminate|lia|].
  exists h. split; [exact H|].
  exact (proj1 (history_shows_the_stop Demo.forward Demo.solve Demo.Adam
                  Demo.backward_clip_step _ _ _ _ H)).
Defined.

(** Five epochs allowed on the solid element, [minEpochs] = 0: at least
    two records. *)
Lemma history_record_count_witness :
  exists h : History,
    Demo.call Demo.solid_element 5 0 = Ok h
    /\ (2 <= length (compliance h) <= 5)%nat.
Proof.
  destruct (demo_call_returns [(1, 0)] 1 1 1 1 (1 / 2) 5 0 eq_refl)
    as (h & H); [discriminate|lia|].
  exists h. split; [exact H|].
  destruct (history_record_count Demo.forward Demo.solve Demo.Adam
              Demo.backward_clip_step _ _ _ _ H) as (A & B).
  lia.
Defined.

(** Three epochs from [penal] = 3. *)
Lemma continuation_schedule_closed_form_witness :
  exists (h : History) (stf : @State unit unit) (r : LoopExit),
    Demo.run (Demo.one_element 1 3 (1 / 2)) 3 0 = Ok (h, stf, r)
    /\ penal (FE (fst stf))
       = Rmin 8.0 (3 + 0.02 * INR (length (passes r))).
Proof.
  destruct (demo_run_returns [(1 / 2, 0)] 1 1 1 3 (1 / 2) 3 0 eq_refl)
    as (h & stf & r & H); [discriminate|lia|].
  exists h, stf, r. split; [exact H|].
  exact (proj1 (proj2 (continuation_schedule_closed_form Demo.forward
                         Demo.solve Demo.Adam Demo.backward_clip_step
                         _ _ _ _ _ _ H))).
Defined.

(** Three epochs on one element. *)
Lemma status_title_is_of_last_multiple_of_20_witness :
  exists (h : History) (stf : @State unit unit) (r : LoopExit),
    Demo.run (Demo.one_element 1 1 (1 / 2)) 3 0 = Ok (h, stf, r)
    /\ exists t : Title,
         titleStr (snd (final r)) = Some t
         /\ title_iter t = (20 * (Z.of_nat (length (passes r) - 1) / 20))%Z.
Proof.
  destruct (demo_run_returns [(1 / 2, 0)] 1 1 1 1 (1 / 2) 3 0 eq_refl)
    as (h & stf & r & H); [discriminate|lia|].
  exists h, stf, r. split; [exact H|].
  exact (proj1 (proj2 (status_title_is_of_last_multiple_of_20 Demo.forward
                         Demo.solve Demo.Adam Demo.backward_clip_step
                         _ _ _ _ _ _ H))).
Defined.

(** Three epochs on one element, from a fresh object. *)
Lemma optimizeDesign_returns_witness :
  exists h : History,
    Demo.call (Demo.one_element 1 1 (1 / 2)) 3 0 = Ok h
    /\ (1 <= length (compliance h) <= 3)%nat.
Proof.
  apply (optimizeDesign_returns Demo.forward Demo.solve Demo.Adam
           Demo.backward_clip_step demo_forward_length
           (Demo.one_element 1 1 (1 / 2)) 3 0).
  - reflexivity.
  - discriminate.
  - reflexivity.
  - lia.
Defined.

(** Three epochs with the network that answers 1/2 everywhere. *)
Lemma recorded_volume_fraction_in_unit_witness :
  exists h : History,
    optimizeDesign Demo.half_everywhere Demo.solve Demo.Adam
      Demo.backward_clip_step (Demo.one_element 1 1 (1 / 2)) 3 0 = Ok h
    /\ Forall in_unit (vol h).
Proof.
  destruct (optimizeDesign_run_total Demo.half_everywhere Demo.solve
              Demo.Adam Demo.backward_clip_step
              (fun _ c => length_map _ c)
              (Demo.one_element 1 1 (1 / 2)) 3 0 eq_refl)
    as (h & stf & r & H); [discriminate|reflexivity|lia|].
  pose proof (call_of_run _ _ _ _ _ _ _ _ _ _ H) as Hc.
  exists h. split; [exact Hc|].
  apply (recorded_volume_fraction_in_unit Demo.half_everywhere Demo.solve
           Demo.Adam Demo.backward_clip_step) with (3 := Hc).
  - intros theta c. unfold Demo.half_everywhere.
    apply Forall_forall. intros v Hv. apply in_map_iff in Hv.
    destruct Hv as (_ & <- & _). exists (1 / 2). split; [reflexivity|lra].
  - left. reflexivity.
Defined.
